(** * Session store, auth facade and route guard of the helpdesk front end

    A shallow embedding of the authentication core of the application:

    - the two versions of the zustand store [useAuthStore] found in the
      repository: the one talking to Supabase ([SupabaseStore]) and the one
      talking to the REST back end through axios ([ApiStore]);
    - the hook [useAuth] (both versions) that wires the store to a mounted
      view and to the provider's notifications ([Facade]);
    - the component [ProtectedRoute] ([Guard]).

    Asynchronous functions are written in a small state-and-exception monad:
    an [await] of a provider call is given the value its promise settles to,
    [throw] and [try ... catch] are the monad's own, and zustand's [set] is
    the write of the store's three data fields. *)

From stdpp Require Import base option strings pretty gmap list.

Open Scope string_scope.

(** ** JavaScript values the code relies on *)

(** What a thrown value looks like to the [catch] blocks of the stores:
    [error.message] and, for an axios error, [error.response?.status] and
    [error.response?.data?.message]. [new Error(m)] has no [response]. *)
Record AxiosErrorResponse := {
  status : Z;
  data_message : option string;
}.

Record JsError := {
  message : string;
  response : option AxiosErrorResponse;
}.

Definition new_Error (m : string) : JsError :=
  {| message := m; response := None |}.

(** [a || d] on strings: the empty string is falsy. *)
Definition or_str (a d : string) : string :=
  match a with
  | EmptyString => d
  | String _ _ => a
  end.

(** [a || d] where [a] may also be [undefined]. *)
Definition or_undef (a : option string) (d : string) : string :=
  match a with
  | Some s => or_str s d
  | None => d
  end.

(** Truthiness of a possibly absent string, as tested by [!token]. *)
Definition truthy_str (a : option string) : bool :=
  match a with
  | Some (String _ _) => true
  | _ => false
  end.

(** [s.includes(sub)], as a proposition. *)
Definition contains (s sub : string) : Prop :=
  ∃ pre post, s = pre +:+ sub +:+ post.

(** ** Promises and the monad of asynchronous store actions *)

(** The value an awaited promise settles to. *)
Inductive settled (A : Type) : Type :=
  | Fulfilled (a : A)
  | Rejected (e : JsError).
Arguments Fulfilled {A} a.
Arguments Rejected {A} e.

(** How a function body completes: normally, or by a [throw]. For an
    [async] function this is how the promise it returned settles. *)
Inductive completion (A : Type) : Type :=
  | Normal (a : A)
  | Throw (e : JsError).
Arguments Normal {A} a.
Arguments Throw {A} e.

Definition Async (S A : Type) : Type := S → completion A * S.

Section AsyncMonad.
Context {S : Type}.

Definition ret {A} (a : A) : Async S A := λ s, (Normal a, s).

Definition bind {A B} (m : Async S A) (k : A → Async S B) : Async S B :=
  λ s, match m s with
       | (Normal a, s') => k a s'
       | (Throw e, s') => (Throw e, s')
       end.

Definition throw {A} (e : JsError) : Async S A := λ s, (Throw e, s).

Definition try_catch {A} (body : Async S A) (handler : JsError → Async S A)
  : Async S A :=
  λ s, match body s with
       | (Normal a, s') => (Normal a, s')
       | (Throw e, s') => handler e s'
       end.

Definition await {A} (p : settled A) : Async S A :=
  match p with
  | Fulfilled a => ret a
  | Rejected e => throw e
  end.

Definition put (s : S) : Async S unit := λ _, (Normal (), s).
Definition modify (f : S → S) : Async S unit := λ s, (Normal (), f s).
End AsyncMonad.

Global Instance Async_ret {S} : MRet (Async S) := λ A, @ret S A.
Global Instance Async_bind {S} : MBind (Async S) := λ A B k m, @bind S A B m k.

(** ** Data model ([types]) *)

Module types.

(** [IUser]. The role is declared as one of "user", "admin" and "agent";
    the Supabase store fills it from the provider's metadata, so it is the
    string found there. *)
Record IUser := {
  user_id : string;
  user_email : string;
  user_name : string;
  user_role : string;
  user_department : option string;
  user_createdAt : string;
  user_updatedAt : string;
}.

Record ILoginCredentials := {
  cred_email : string;
  cred_password : string;
}.

Record IRegisterData := {
  reg_email : string;
  reg_password : string;
  reg_name : string;
  reg_department : option string;
}.

(** The data fields of [IAuthStore]; its four methods are the functions of
    the store modules below. *)
Record IAuthStore := {
  user : option IUser;
  token : option string;
  isAuthenticated : bool;
}.

(** The literal every version of the store starts from and resets to. *)
Definition signed_out : IAuthStore :=
  {| user := None; token := None; isAuthenticated := false |}.

Definition signed_in (u : IUser) (t : string) : IAuthStore :=
  {| user := Some u; token := Some t; isAuthenticated := true |}.

(** [IApiResponse<T>]. *)
Record IApiResponse (T : Type) := {
  resp_success : bool;
  resp_data : option T;
  resp_message : option string;
  resp_error : option string;
}.
Arguments resp_success {T} _.
Arguments resp_data {T} _.
Arguments resp_message {T} _.
Arguments resp_error {T} _.

End types.
Export types.

(** ** Constants ([lib/constants.ts]) *)

Module ROUTES.
Definition HOME : string := "/".
Definition LOGIN : string := "/auth/login".
Definition CHAT : string := "/chat".
Definition TICKET_HISTORY : string := "/tickets".
Definition ADMIN_DASHBOARD : string := "/admin/dashboard".
End ROUTES.

Module LOCAL_STORAGE_KEYS.
Definition AUTH_TOKEN : string := "powersupport_auth_token".
Definition DRAFT_MESSAGE : string := "powersupport_draft_message".
End LOCAL_STORAGE_KEYS.

(** [isAuthenticated] is true exactly when [user] and [token] are both
    non-null. *)
Definition session_invariant (s : IAuthStore) : Prop :=
  isAuthenticated s = true ↔ is_Some (user s) ∧ is_Some (token s).

(** ** The store backed by Supabase *)

(** The parts of [@supabase/supabase-js] the store reads. [user_metadata] is
    a free-form object; the application only ever stores strings in it (see
    [register]), so its values are strings here and a missing key is
    [undefined]. The store reads [email] with a non-null assertion and
    assigns the timestamps to string fields, so the three are strings. *)
Module supabase_js.

Record User := {
  id : string;
  email : string;
  user_metadata : option (gmap string string);
  created_at : string;
  updated_at : string;
}.

Record Session := {
  access_token : string;
  user : User;
}.

(** [{ data: { user, session }, error }] of [signInWithPassword] and
    [signUp]. *)
Record AuthResponse := {
  data_user : option User;
  data_session : option Session;
  error : option JsError;
}.

(** [{ data: { session }, error }] of [getSession]. *)
Record SessionResponse := {
  session : option Session;
  session_error : option JsError;
}.

Record SignUpOptions := {
  emailRedirectTo : string;
  data : gmap string string;
}.

Record SignUpCredentials := {
  signUp_email : string;
  signUp_password : string;
  options : SignUpOptions;
}.

(** [supabase.auth], as the outcome each call settles to. *)
Record AuthClient := {
  signInWithPassword : ILoginCredentials → settled AuthResponse;
  signUp : SignUpCredentials → settled AuthResponse;
  signOut : settled (option JsError);
  getSession : settled SessionResponse;
}.

End supabase_js.

Module SupabaseStore.
Import supabase_js.

(** zustand's [set] with all three data fields given replaces them all. *)
Definition set (partial : IAuthStore) : Async IAuthStore unit := put partial.

(** [user_metadata?.k]. *)
Definition metadata (u : User) (k : string) : option string :=
  user_metadata u ≫= (.!! k).

(** The object literal under "Transform Supabase user to IUser format" in
    [login] and [checkAuth]. *)
Definition toIUser (u : User) : IUser :=
  {| user_id := id u;
     user_email := email u;
     user_name := or_undef (metadata u "name") (email u);
     user_role := or_undef (metadata u "role") "user";
     user_department := metadata u "department";
     user_createdAt := created_at u;
     user_updatedAt := updated_at u |}.

(** The object passed to [signInWithPassword]. *)
Definition signIn_request (credentials : ILoginCredentials)
  : ILoginCredentials :=
  {| cred_email := cred_email credentials;
     cred_password := cred_password credentials |}.

Definition login (supabase : AuthClient) (credentials : ILoginCredentials)
  : Async IAuthStore unit :=
  try_catch
    (r ← await (signInWithPassword supabase (signIn_request credentials));
     match error r with
     | Some error => throw error
     | None =>
         match data_user r, data_session r with
         | Some u, Some ss =>
             set {| types.user := Some (toIUser u);
                    token := Some (access_token ss);
                    isAuthenticated := true |}
         | _, _ => mret ()
         end
     end)
    (λ error, throw (new_Error (or_str (message error) "Login failed"))).

(** The [data] object sent with [signUp]; a [department] left undefined is
    not a key of it. *)
Definition signUp_data (userData : IRegisterData) : gmap string string :=
  let base : gmap string string :=
    <["name" := reg_name userData]> (<["role" := "user"]> ∅) in
  match reg_department userData with
  | Some d => <["department" := d]> base
  | None => base
  end.

(** The object passed to [signUp]; [origin] is [window.location.origin]. *)
Definition signUp_request (origin : string) (userData : IRegisterData)
  : SignUpCredentials :=
  {| signUp_email := reg_email userData;
     signUp_password := reg_password userData;
     options := {| emailRedirectTo := origin +:+ "/";
                   data := signUp_data userData |} |}.

Definition register (origin : string) (supabase : AuthClient)
    (userData : IRegisterData) : Async IAuthStore unit :=
  try_catch
    (r ← await (signUp supabase (signUp_request origin userData));
     match error r with
     | Some error => throw error
     | None =>
         match data_user r, data_session r with
         | Some u, Some ss =>
             set {| types.user :=
                      Some {| user_id := id u;
                              user_email := email u;
                              user_name := reg_name userData;
                              user_role := "user";
                              user_department := reg_department userData;
                              user_createdAt := created_at u;
                              user_updatedAt := updated_at u |};
                    token := Some (access_token ss);
                    isAuthenticated := true |}
         | _, _ => mret ()
         end
     end)
    (λ error, throw (new_Error (or_str (message error) "Registration failed"))).

Definition logout (supabase : AuthClient) : Async IAuthStore unit :=
  try_catch (_ ← await (signOut supabase); mret ())
            (λ error, mret ());;
  set {| types.user := None; token := None; isAuthenticated := false |}.

Definition checkAuth (supabase : AuthClient) : Async IAuthStore unit :=
  try_catch
    (r ← await (getSession supabase);
     match session r with
     | Some ss =>
         set {| types.user := Some (toIUser (supabase_js.user ss));
                token := Some (access_token ss);
                isAuthenticated := true |}
     | None =>
         set {| types.user := None; token := None; isAuthenticated := false |}
     end)
    (λ error,
       set {| types.user := None; token := None; isAuthenticated := false |}).

End SupabaseStore.

(** ** The store backed by the REST API *)

(** What the browser holds for this version of the store: the zustand state,
    [localStorage] and [window.location.href]. The entries of
    [localStorage] are the ones the code reads and writes itself; the copy of
    the state that the [persist] middleware keeps under its own key,
    "powersupport-auth", is left out. *)
Record Browser := {
  store : IAuthStore;
  localStorage : gmap string string;
  location_href : string;
}.

Definition with_store (s : IAuthStore) (w : Browser) : Browser :=
  {| store := s;
     localStorage := localStorage w;
     location_href := location_href w |}.

Definition with_storage (m : gmap string string) (w : Browser) : Browser :=
  {| store := store w; localStorage := m; location_href := location_href w |}.

Definition with_href (url : string) (w : Browser) : Browser :=
  {| store := store w; localStorage := localStorage w; location_href := url |}.

Module Storage.
Definition getItem (k : string) : Async Browser (option string) :=
  λ w, (Normal (localStorage w !! k), w).
Definition setItem (k v : string) : Async Browser unit :=
  modify (λ w, with_storage (<[k := v]> (localStorage w)) w).
Definition removeItem (k : string) : Async Browser unit :=
  modify (λ w, with_storage (delete k (localStorage w)) w).
End Storage.

(** [window.location.href = url]. *)
Definition assign_href (url : string) : Async Browser unit :=
  modify (with_href url).

(** [lib/api.ts]: the axios instance with its two interceptors, and
    [authAPI]. The back end answers a request from its [Authorization] header
    and its body; a fulfilled outcome is the body of a 2xx response, a
    rejected one the axios error. *)
Module api.

Record Backend := {
  post_auth_login :
    option string → ILoginCredentials → settled (IApiResponse (IUser * string));
  post_auth_register :
    option string → IRegisterData → settled (IApiResponse (IUser * string));
  get_auth_verify : option string → settled (IApiResponse IUser);
  post_auth_logout : option string → settled (IApiResponse unit);
}.

(** Request interceptor: the [Authorization] header, set when a token is
    stored. *)
Definition bearer (token : option string) : option string :=
  if truthy_str token then (λ t, "Bearer " +:+ t) <$> token else None.

(** The header a request leaves the browser [w] with. *)
Definition authorization (w : Browser) : option string :=
  bearer (localStorage w !! LOCAL_STORAGE_KEYS.AUTH_TOKEN).

Definition request_interceptor : Async Browser (option string) :=
  token ← Storage.getItem LOCAL_STORAGE_KEYS.AUTH_TOKEN;
  mret (bearer token).

(** Response interceptor: on a 401 the stored token is dropped and the
    browser is sent to the login page; the error is passed on. *)
Definition response_interceptor {A} (p : settled A) : Async Browser A :=
  match p with
  | Fulfilled a => mret a
  | Rejected error =>
      (if bool_decide (status <$> response error = Some 401%Z)
       then Storage.removeItem LOCAL_STORAGE_KEYS.AUTH_TOKEN;;
            assign_href "/auth/login"
       else mret ());;
      throw error
  end.

Definition request {A} (send : option string → settled A) : Async Browser A :=
  authorization ← request_interceptor;
  response_interceptor (send authorization).

Module authAPI.
Definition login (b : Backend) (credentials : ILoginCredentials) :=
  request (λ h, post_auth_login b h credentials).
Definition register (b : Backend) (userData : IRegisterData) :=
  request (λ h, post_auth_register b h userData).
Definition verifyToken (b : Backend) := request (get_auth_verify b).
Definition logout (b : Backend) := request (post_auth_logout b).
End authAPI.

End api.

Module ApiStore.
Import api.

Definition set (partial : IAuthStore) : Async Browser unit :=
  modify (with_store partial).

(** [error.response?.data?.message || error.message || fallback]. *)
Definition failure_message (error : JsError) (fallback : string) : string :=
  or_undef (response error ≫= data_message) (or_str (message error) fallback).

Definition login (b : Backend) (credentials : ILoginCredentials)
  : Async Browser unit :=
  try_catch
    (response ← authAPI.login b credentials;
     match resp_success response, resp_data response with
     | true, Some (user, token) =>
         Storage.setItem LOCAL_STORAGE_KEYS.AUTH_TOKEN token;;
         set {| types.user := Some user;
                types.token := Some token;
                isAuthenticated := true |}
     | _, _ =>
         throw (new_Error (or_undef (resp_message response) "Login failed"))
     end)
    (λ error, throw (new_Error (failure_message error "Login failed"))).

Definition register (b : Backend) (userData : IRegisterData)
  : Async Browser unit :=
  try_catch
    (response ← authAPI.register b userData;
     match resp_success response, resp_data response with
     | true, Some (user, token) =>
         Storage.setItem LOCAL_STORAGE_KEYS.AUTH_TOKEN token;;
         set {| types.user := Some user;
                types.token := Some token;
                isAuthenticated := true |}
     | _, _ =>
         throw (new_Error (or_undef (resp_message response)
                                    "Registration failed"))
     end)
    (λ error, throw (new_Error (failure_message error "Registration failed"))).

(** Not [async]: the store is reset first, then the request is fired and
    its failure handed to [console.error]. The request is taken to settle
    before the next store method runs. *)
Definition logout (b : Backend) : Async Browser unit :=
  Storage.removeItem LOCAL_STORAGE_KEYS.AUTH_TOKEN;;
  set {| types.user := None; types.token := None; isAuthenticated := false |};;
  try_catch (_ ← authAPI.logout b; mret ()) (λ error, mret ()).

Definition checkAuth (b : Backend) : Async Browser unit :=
  token ← Storage.getItem LOCAL_STORAGE_KEYS.AUTH_TOKEN;
  if negb (truthy_str token) then
    set {| types.user := None; types.token := None; isAuthenticated := false |}
  else
    try_catch
      (response ← authAPI.verifyToken b;
       match resp_success response, resp_data response with
       | true, Some data =>
           set {| types.user := Some data;
                  types.token := token;
                  isAuthenticated := true |}
       | _, _ => throw (new_Error "Token verification failed")
       end)
      (λ error,
         Storage.removeItem LOCAL_STORAGE_KEYS.AUTH_TOKEN;;
         set {| types.user := None; types.token := None;
                isAuthenticated := false |}).

End ApiStore.

(** ** Sequences of completed store operations *)

(** One completed call of a store method, with the provider as it answered
    that call. *)
Module SupabaseOps.
Import supabase_js.

Inductive Op :=
  | op_login (supabase : AuthClient) (credentials : ILoginCredentials)
  | op_register (origin : string) (supabase : AuthClient)
                (userData : IRegisterData)
  | op_logout (supabase : AuthClient)
  | op_checkAuth (supabase : AuthClient).

Definition perform (o : Op) : Async IAuthStore unit :=
  match o with
  | op_login supabase credentials => SupabaseStore.login supabase credentials
  | op_register origin supabase userData =>
      SupabaseStore.register origin supabase userData
  | op_logout supabase => SupabaseStore.logout supabase
  | op_checkAuth supabase => SupabaseStore.checkAuth supabase
  end.

(** The store after the calls of [ops], in order, each run to completion
    whether it resolved or rejected. *)
Definition after (ops : list Op) (s : IAuthStore) : IAuthStore :=
  fold_left (λ s o, (perform o s).2) ops s.

End SupabaseOps.

Module ApiOps.
Import api.

Inductive Op :=
  | op_login (b : Backend) (credentials : ILoginCredentials)
  | op_register (b : Backend) (userData : IRegisterData)
  | op_logout (b : Backend)
  | op_checkAuth (b : Backend).

Definition perform (o : Op) : Async Browser unit :=
  match o with
  | op_login b credentials => ApiStore.login b credentials
  | op_register b userData => ApiStore.register b userData
  | op_logout b => ApiStore.logout b
  | op_checkAuth b => ApiStore.checkAuth b
  end.

Definition after (ops : list Op) (w : Browser) : Browser :=
  fold_left (λ w o, (perform o w).2) ops w.

(** A browser whose store is in its initial state. *)
Definition fresh (storage : gmap string string) (href : string) : Browser :=
  {| store := signed_out; localStorage := storage; location_href := href |}.

End ApiOps.

(** ** Calls that are not awaited *)

(** A call of an [async] method whose promise the caller drops: the state
    when the call returns (the method has run up to its first [await]),
    and what is left of the method, to run when the promise it waits for
    settles. *)
Definition Call (T : Type) : Type := T → T * Async T unit.

(** The whole method: what is left, run right after the call. *)
Definition whole {T} (c : Call T) : Async T unit :=
  λ s, (c s).2 (c s).1.

(** The state as the running code sees it, and the calls it has started
    and not awaited, oldest first. *)
Record Loop (T : Type) := {
  world : T;
  pending : list (Async T unit);
}.
Arguments world {T} _.
Arguments pending {T} _.

Definition idle {T} (s : T) : Loop T := {| world := s; pending := [] |}.

Definition invoke {T} (c : Call T) (l : Loop T) : Loop T :=
  {| world := (c (world l)).1;
     pending := pending l ++ [(c (world l)).2] |}.

(** The state once every pending call has settled, in the order the calls
    were made. *)
Definition drain {T} (l : Loop T) : T :=
  foldl (λ s k, (k s).2) (world l) (pending l).

(** [logout] and [checkAuth] of the Supabase store open with
    [try { await supabase.auth. ...]: the store is written only after the
    provider's promise has settled. *)
Module SupabaseCalls.
Definition logout (supabase : supabase_js.AuthClient) : Call IAuthStore :=
  λ s, (s, SupabaseStore.logout supabase).
Definition checkAuth (supabase : supabase_js.AuthClient) : Call IAuthStore :=
  λ s, (s, SupabaseStore.checkAuth supabase).
End SupabaseCalls.

(** In the API store [logout] is not [async]: the token is removed and the
    store reset before it returns, and only the request it fires is left.
    [checkAuth] resets the store before it returns when no token is stored,
    and otherwise has done nothing when it reaches
    [await authAPI.verifyToken()]. *)
Module ApiCalls.
Import api.

Definition logout (b : Backend) : Call Browser :=
  λ w,
    (((Storage.removeItem LOCAL_STORAGE_KEYS.AUTH_TOKEN;;
       ApiStore.set {| types.user := None; types.token := None;
                       isAuthenticated := false |}) w).2,
     try_catch (_ ← authAPI.logout b; mret ()) (λ error, mret ())).

Definition checkAuth (b : Backend) : Call Browser :=
  λ w,
    let token := localStorage w !! LOCAL_STORAGE_KEYS.AUTH_TOKEN in
    if negb (truthy_str token) then
      ((ApiStore.set {| types.user := None; types.token := None;
                        isAuthenticated := false |} w).2,
       mret ())
    else
      (w,
       try_catch
         (response ← authAPI.verifyToken b;
          match resp_success response, resp_data response with
          | true, Some data =>
              ApiStore.set {| types.user := Some data;
                              types.token := token;
                              isAuthenticated := true |}
          | _, _ => throw (new_Error "Token verification failed")
          end)
         (λ error,
            Storage.removeItem LOCAL_STORAGE_KEYS.AUTH_TOKEN;;
            ApiStore.set {| types.user := None; types.token := None;
                            isAuthenticated := false |})).

End ApiCalls.


(** ** The hook [useAuth] *)

Module Facade.

(** The two methods of [authStore] the effect of the hook calls. *)
Record AuthStore (T : Type) := {
  logout : Call T;
  checkAuth : Call T;
}.
Arguments logout {T} _.
Arguments checkAuth {T} _.

Definition supabase_store (supabase : supabase_js.AuthClient)
  : AuthStore IAuthStore :=
  {| logout := SupabaseCalls.logout supabase;
     checkAuth := SupabaseCalls.checkAuth supabase |}.

Definition api_store (b : api.Backend) : AuthStore Browser :=
  {| logout := ApiCalls.logout b; checkAuth := ApiCalls.checkAuth b |}.


(** The callback handed to [supabase.auth.onAuthStateChange]. *)
Definition onAuthStateChange_callback {T} (authStore : AuthStore T)
    (event : string) (session : option supabase_js.Session)
  : Loop T → Loop T :=
  if bool_decide (event = "SIGNED_OUT") then invoke (logout authStore)
  else match session with
       | Some _ => invoke (checkAuth authStore)
       | None => λ l, l
       end.

(** A mounted hook: the loop it runs in, and whether its callback is
    registered with the provider. *)
Record Hook (T : Type) := {
  loop : Loop T;
  subscribed : bool;
}.
Arguments loop {T} _.
Arguments subscribed {T} _.

(** The mount effect ([useEffect(..., [])]) of the Supabase version: the
    callback is registered, then the session check is called. *)
Definition useAuth_effect {T} (authStore : AuthStore T) (h : Hook T)
  : Hook T :=
  {| loop := invoke (checkAuth authStore) (loop h); subscribed := true |}.

(** Its cleanup: [subscription.unsubscribe()]. *)
Definition useAuth_cleanup {T} (h : Hook T) : Hook T :=
  {| loop := loop h; subscribed := false |}.

(** The mount effect of the version without a provider channel. *)
Definition useAuth_effect_api {T} (authStore : AuthStore T) (l : Loop T)
  : Loop T :=
  invoke (checkAuth authStore) l.

(** A notification of the provider: it reaches the callback while the
    callback is registered. *)
Definition notify {T} (authStore : AuthStore T) (event : string)
    (session : option supabase_js.Session) (h : Hook T) : Hook T :=
  if subscribed h
  then {| loop := onAuthStateChange_callback authStore event session (loop h);
          subscribed := true |}
  else h.

(** How often each method was called. *)
Record Calls := {
  logouts : nat;
  checkAuths : nat;
}.

Definition on_fst {T A} (m : Async T A) : Async (T * Calls) A :=
  λ sc, ((m sc.1).1, ((m sc.1).2, sc.2)).

(** A store whose methods count their calls and, for the rest, are the
    methods of [authStore]. *)
Definition counted {T} (authStore : AuthStore T) : AuthStore (T * Calls) :=
  {| logout := λ sc,
       (((logout authStore sc.1).1,
         {| logouts := logouts sc.2 + 1; checkAuths := checkAuths sc.2 |}),
        on_fst (logout authStore sc.1).2);
     checkAuth := λ sc,
       (((checkAuth authStore sc.1).1,
         {| logouts := logouts sc.2; checkAuths := checkAuths sc.2 + 1 |}),
        on_fst (checkAuth authStore sc.1).2) |}.

End Facade.

(** ** The component [ProtectedRoute] *)

Module Guard.

(** [requireRole?: 'user' | 'admin' | 'agent']. *)
Inductive Role := role_user | role_admin | role_agent.

Global Instance Role_eq_dec : EqDecision Role.
Proof. solve_decision. Defined.

Definition Role_literal (r : Role) : string :=
  match r with
  | role_user => "user"
  | role_admin => "admin"
  | role_agent => "agent"
  end.

(** What the component returns: the skeleton placeholder, a [<Navigate>]
    with its [to], the [from] of its [state] if any and its [replace] flag,
    or the children. *)
Inductive Element :=
  | Skeleton
  | Navigate (to : string) (state_from : option string) (replace : bool)
  | children.

(** [isAuthenticated] is compared with [undefined] by the component, so it
    is an optional boolean here; [location] is what [useLocation] gave. *)
Definition ProtectedRoute (isAuthenticated : option bool) (user : option IUser)
    (requireRole : option Role) (location : string) : Element :=
  if bool_decide (isAuthenticated = None)
     || (default false isAuthenticated && negb (bool_decide (is_Some user)))
  then Skeleton
  else if negb (default false isAuthenticated)
  then Navigate ROUTES.LOGIN (Some location) true
  else match requireRole with
       | Some r =>
           if bool_decide (user_role <$> user ≠ Some (Role_literal r))
           then Navigate (if bool_decide (r = role_admin) then ROUTES.LOGIN
                          else ROUTES.HOME)
                         None true
           else children
       | None => children
       end.

(** The component as rendered over the store, through [useAuth]. *)
Definition render (s : IAuthStore) (requireRole : option Role)
    (location : string) : Element :=
  ProtectedRoute (Some (isAuthenticated s)) (types.user s) requireRole location.

End Guard.

(** ** What the claims speak about *)

(** The provider reports a valid session [ss] to [checkAuth]. *)
Definition supabase_valid_session
    (supabase : supabase_js.AuthClient) (ss : supabase_js.Session) : Prop :=
  ∃ r, supabase_js.getSession supabase = Fulfilled r
       ∧ supabase_js.session r = Some ss.

(** The back end confirms the token [t] stored in the browser [w] and names
    its user [u]. *)
Definition api_valid_session
    (b : api.Backend) (w : Browser) (u : IUser) (t : string) : Prop :=
  localStorage w !! LOCAL_STORAGE_KEYS.AUTH_TOKEN = Some t
  ∧ truthy_str (Some t) = true
  ∧ ∃ r, api.get_auth_verify b (api.authorization w) = Fulfilled r
         ∧ resp_success r = true ∧ resp_data r = Some u.

(** The record the Supabase [register] stores for the submitted [userData]
    and the provider's user [u]. *)
Definition registered (userData : IRegisterData) (u : supabase_js.User)
  : IUser :=
  {| user_id := supabase_js.id u;
     user_email := supabase_js.email u;
     user_name := reg_name userData;
     user_role := "user";
     user_department := reg_department userData;
     user_createdAt := supabase_js.created_at u;
     user_updatedAt := supabase_js.updated_at u |}.

(** The way a login or register request to the back end can fail: the
    request is rejected with an axios error, or it is answered with a body
    that is not a success carrying data. *)
Definition api_failed {T} (o : settled (IApiResponse T)) : Prop :=
  match o with
  | Rejected _ => True
  | Fulfilled r => resp_success r = false ∨ resp_data r = None
  end.

(** The message the back end gave for a failed request, when it gave one:
    the [message] of the error body of a rejected request, else the axios
    error's own; the [message] of an unsuccessful answer. *)
Definition api_provider_message {T} (o : settled (IApiResponse T))
  : option string :=
  match o with
  | Rejected e =>
      Some (default (message e) (response e ≫= data_message))
  | Fulfilled r => resp_message r
  end.

(** A sign-in or sign-up call that fails with the error [e]: the promise is
    rejected with it, or the answer carries it in its [error] field. *)
Definition supabase_failed
    (o : settled supabase_js.AuthResponse) (e : JsError) : Prop :=
  o = Rejected e ∨ ∃ r, o = Fulfilled r ∧ supabase_js.error r = Some e.

(** A sign-in or sign-up call answered without error by [r]. *)
Definition supabase_answered
    (o : settled supabase_js.AuthResponse) (r : supabase_js.AuthResponse)
  : Prop :=
  o = Fulfilled r ∧ supabase_js.error r = None.

(** A request answered by the back end with the user [u] and the token
    [t]. *)
Definition api_answered
    (o : settled (IApiResponse (IUser * string))) (u : IUser) (t : string)
  : Prop :=
  ∃ r, o = Fulfilled r ∧ resp_success r = true ∧ resp_data r = Some (u, t).

(** The provider supplies the value [v] for the key [k] of the user's
    metadata: the metadata is there, has the key, and the value is not
    empty. *)
Definition provider_supplies (u : supabase_js.User) (k v : string) : Prop :=
  ∃ m : gmap string string,
    supabase_js.user_metadata u = Some m ∧ m !! k = Some v ∧ v ≠ "".

(** ** Sample providers *)

Module Scenario.
Import supabase_js.

Definition credentials : ILoginCredentials :=
  {| cred_email := "a@x.com"; cred_password := "pw" |}.

Definition userData : IRegisterData :=
  {| reg_email := "a@x.com"; reg_password := "pw";
     reg_name := "Asha"; reg_department := Some "Grid" |}.

(** A provider user without metadata. *)
Definition user_1 : User :=
  {| id := "1"; email := "a@x.com"; user_metadata := None;
     created_at := "2024-01-01"; updated_at := "2024-01-02" |}.

(** A provider user whose metadata names it an administrator. *)
Definition user_2 : User :=
  {| id := "2"; email := "root@x.com";
     user_metadata := Some (<["role" := "admin"]> (<["name" := "Root"]> ∅));
     created_at := "2024-01-01"; updated_at := "2024-01-02" |}.

Definition session_of (u : User) : Session :=
  {| access_token := "T1"; user := u |}.

Definition granted (u : User) : AuthResponse :=
  {| data_user := Some u; data_session := Some (session_of u); error := None |}.

(** Sign-up accepted, confirmation of the address pending: a user and no
    session. *)
Definition pending (u : User) : AuthResponse :=
  {| data_user := Some u; data_session := None; error := None |}.

Definition refused (m : string) : AuthResponse :=
  {| data_user := None; data_session := None; error := Some (new_Error m) |}.

(** A provider that knows [u], whose [signOut] fails. *)
Definition provider (u : User) : AuthClient :=
  {| signInWithPassword := λ _, Fulfilled (granted u);
     signUp := λ _, Fulfilled (granted u);
     signOut := Rejected (new_Error "Failed to fetch");
     getSession := Fulfilled {| session := Some (session_of u);
                                session_error := None |} |}.

(** A provider that refuses the credentials and cannot be reached
    otherwise. *)
Definition refusing_provider : AuthClient :=
  {| signInWithPassword := λ _, Fulfilled (refused "Invalid credentials");
     signUp := λ _, Fulfilled (refused "User already registered");
     signOut := Rejected (new_Error "Failed to fetch");
     getSession := Rejected (new_Error "Failed to fetch") |}.

(** A provider whose sign-in and sign-up answer without a session. *)
Definition confirming_provider : AuthClient :=
  {| signInWithPassword := λ _, Fulfilled (pending user_1);
     signUp := λ _, Fulfilled (pending user_1);
     signOut := Fulfilled None;
     getSession := Fulfilled {| session := None; session_error := None |} |}.

Definition plain_user : IUser := SupabaseStore.toIUser user_1.
Definition admin_user : IUser := SupabaseStore.toIUser user_2.

Definition api_granted (u : IUser) : IApiResponse (IUser * string) :=
  {| resp_success := true; resp_data := Some (u, "T1");
     resp_message := None; resp_error := None |}.

(** A back end that answers every login and registration with the
    administrator's record, verifies every token as that user, and rejects
    the logout request. *)
Definition backend : api.Backend :=
  {| api.post_auth_login := λ _ _, Fulfilled (api_granted admin_user);
     api.post_auth_register := λ _ _, Fulfilled (api_granted admin_user);
     api.get_auth_verify := λ _,
       Fulfilled {| resp_success := true; resp_data := Some admin_user;
                    resp_message := None; resp_error := None |};
     api.post_auth_logout := λ _, Rejected (new_Error "Network Error") |}.

(** A back end that answers 401 with a message. *)
Definition unauthorized : JsError :=
  {| message := "Request failed with status code 401";
     response := Some {| status := 401; 
                         data_message := Some "Invalid credentials" |} |}.

Definition refusing_backend : api.Backend :=
  {| api.post_auth_login := λ _ _, Rejected unauthorized;
     api.post_auth_register := λ _ _, Rejected unauthorized;
     api.get_auth_verify := λ _, Rejected unauthorized;
     api.post_auth_logout := λ _, Rejected unauthorized |}.

Definition browser : Browser := ApiOps.fresh ∅ "/auth/login".

(** A record the back end sends with an empty name and an empty role. *)
Definition bare_user : IUser :=
  {| user_id := "1"; user_email := "a@x.com"; user_name := "";
     user_role := ""; user_department := None;
     user_createdAt := "2024-01-01"; user_updatedAt := "2024-01-02" |}.

Definition bare_backend : api.Backend :=
  {| api.post_auth_login := λ _ _, Fulfilled (api_granted bare_user);
     api.post_auth_register := λ _ _, Fulfilled (api_granted bare_user);
     api.get_auth_verify := λ _,
       Fulfilled {| resp_success := true; resp_data := Some bare_user;
                    resp_message := None; resp_error := None |};
     api.post_auth_logout := λ _, Rejected (new_Error "Network Error") |}.

(** The same user as Supabase would send it: the metadata holds an empty
    name and an empty role. *)
Definition user_3 : User :=
  {| id := "1"; email := "a@x.com";
     user_metadata := Some (<["role" := ""]> (<["name" := ""]> ∅));
     created_at := "2024-01-01"; updated_at := "2024-01-02" |}.

End Scenario.

(** ** Tickets ([types], [ticketsAPI], the ticket store) *)

Module ticket.

Inductive Status := open | in_progress | resolved | closed.
Inductive Priority := low | medium | high | critical.

Global Instance Status_eq_dec : EqDecision Status.
Proof. solve_decision. Defined.
Global Instance Priority_eq_dec : EqDecision Priority.
Proof. solve_decision. Defined.

Definition Status_literal (s : Status) : string :=
  match s with
  | open => "open"
  | in_progress => "in_progress"
  | resolved => "resolved"
  | closed => "closed"
  end.

Definition Priority_literal (p : Priority) : string :=
  match p with
  | low => "low"
  | medium => "medium"
  | high => "high"
  | critical => "critical"
  end.

Record ITicket := {
  ticket_id : string;
  ticket_title : string;
  ticket_description : string;
  ticket_status : Status;
  ticket_priority : Priority;
  ticket_category : string;
  ticket_userId : string;
  ticket_assignedTo : option string;
  ticket_aiResponse : option string;
  ticket_createdAt : string;
  ticket_updatedAt : string;
  ticket_resolvedAt : option string;
  ticket_user : option IUser;
  ticket_assignedAgent : option IUser;
}.

(** [Partial<ITicket>]: every field optional. *)
Record PartialITicket := {
  partial_id : option string;
  partial_title : option string;
  partial_description : option string;
  partial_status : option Status;
  partial_priority : option Priority;
  partial_category : option string;
  partial_userId : option string;
  partial_assignedTo : option string;
  partial_aiResponse : option string;
  partial_createdAt : option string;
  partial_updatedAt : option string;
  partial_resolvedAt : option string;
  partial_user : option IUser;
  partial_assignedAgent : option IUser;
}.

(** The data fields of [ITicketStore]. *)
Record ITicketStore := {
  tickets : list ITicket;
  loading : bool;
  error : option string;
}.

(** The ticket routes of the back end, answered from the [Authorization]
    header, the path parameter and the body. *)
Record Backend := {
  get_tickets : option string → settled (IApiResponse (list ITicket));
  get_ticket : option string → string → settled (IApiResponse ITicket);
  post_tickets :
    option string → PartialITicket → settled (IApiResponse ITicket);
  patch_ticket :
    option string → string → PartialITicket → settled (IApiResponse ITicket);
  delete_ticket : option string → string → settled (IApiResponse unit);
  post_tickets_query :
    option string → string → settled (IApiResponse (string * string));
}.

(** [ticketsAPI] of [lib/api.ts]: each call goes through the axios instance
    and its interceptors. *)
Module ticketsAPI.
Definition getAll (b : Backend) := api.request (get_tickets b).
Definition getById (b : Backend) (id : string) :=
  api.request (λ h, get_ticket b h id).
Definition create (b : Backend) (ticketData : PartialITicket) :=
  api.request (λ h, post_tickets b h ticketData).
Definition update (b : Backend) (id : string) (updates : PartialITicket) :=
  api.request (λ h, patch_ticket b h id updates).
Definition delete (b : Backend) (id : string) :=
  api.request (λ h, delete_ticket b h id).
Definition submitQuery (b : Backend) (query : string) :=
  api.request (λ h, post_tickets_query b h query).
End ticketsAPI.

End ticket.

Module TicketStore.
Import ticket.

(** The ticket store runs in a browser: its requests read and may clear the
    stored token. *)
Record App := {
  browser : Browser;
  state : ITicketStore;
}.

Definition with_browser (w : Browser) (a : App) : App :=
  {| browser := w; state := state a |}.

Definition in_browser {A} (m : Async Browser A) : Async App A :=
  λ a, ((m (browser a)).1, with_browser (m (browser a)).2 a).

(** zustand's [set]: the fields given, by an object or by a function of the
    state, are merged into the state. *)
Definition set (merge : ITicketStore → ITicketStore) : Async App unit :=
  modify (λ a, {| browser := browser a; state := merge (state a) |}).

Definition fetchTickets (b : Backend) : Async App unit :=
  set (λ st, {| tickets := tickets st; loading := true; error := None |});;
  try_catch
    (response ← in_browser (ticketsAPI.getAll b);
     match resp_success response, resp_data response with
     | true, Some data =>
         set (λ st, {| tickets := data; loading := false; error := error st |})
     | _, _ =>
         throw (new_Error (or_undef (resp_message response)
                                    "Failed to fetch tickets"))
     end)
    (λ error,
       set (λ st, {| tickets := tickets st;
                     loading := false;
                     ticket.error :=
                       Some (ApiStore.failure_message error
                               "Failed to fetch tickets") |})).

Definition createTicket (b : Backend) (ticketData : PartialITicket)
  : Async App ITicket :=
  try_catch
    (response ← in_browser (ticketsAPI.create b ticketData);
     match resp_success response, resp_data response with
     | true, Some newTicket =>
         set (λ st, {| tickets := newTicket :: tickets st;
                       loading := loading st;
                       error := error st |});;
         mret newTicket
     | _, _ =>
         throw (new_Error (or_undef (resp_message response)
                                    "Failed to create ticket"))
     end)
    (λ error,
       let errorMessage :=
         ApiStore.failure_message error "Failed to create ticket" in
       set (λ st, {| tickets := tickets st;
                     loading := loading st;
                     ticket.error := Some errorMessage |});;
       throw (new_Error errorMessage)).

Definition updateTicket (b : Backend) (id : string) (updates : PartialITicket)
  : Async App unit :=
  try_catch
    (response ← in_browser (ticketsAPI.update b id updates);
     match resp_success response, resp_data response with
     | true, Some updatedTicket =>
         set (λ st, {| tickets :=
                         (λ ticket, if bool_decide (ticket_id ticket = id)
                                    then updatedTicket else ticket)
                         <$> tickets st;
                       loading := loading st;
                       error := error st |})
     | _, _ =>
         throw (new_Error (or_undef (resp_message response)
                                    "Failed to update ticket"))
     end)
    (λ error,
       let errorMessage :=
         ApiStore.failure_message error "Failed to update ticket" in
       set (λ st, {| tickets := tickets st;
                     loading := loading st;
                     ticket.error := Some errorMessage |});;
       throw (new_Error errorMessage)).

Definition deleteTicket (b : Backend) (id : string) : Async App unit :=
  try_catch
    (response ← in_browser (ticketsAPI.delete b id);
     if resp_success response then
       set (λ st, {| tickets :=
                       filter (λ ticket, ticket_id ticket ≠ id) (tickets st);
                     loading := loading st;
                     error := error st |})
     else
       throw (new_Error (or_undef (resp_message response)
                                  "Failed to delete ticket")))
    (λ error,
       let errorMessage :=
         ApiStore.failure_message error "Failed to delete ticket" in
       set (λ st, {| tickets := tickets st;
                     loading := loading st;
                     ticket.error := Some errorMessage |});;
       throw (new_Error errorMessage)).

End TicketStore.

(** ** The hook [useFormPersist] *)

Module FormPersist.

(** The hook's [value] state and the [localStorage] it mirrors it to. *)
Record Form := {
  value : string;
  storage : gmap string string;
}.

Definition storage_key (key : string) : string :=
  LOCAL_STORAGE_KEYS.DRAFT_MESSAGE +:+ "_" +:+ key.

Section WithTrim.
(** [String.prototype.trim]. *)
Context (trim : string → string).

(** The effect on [[key, value]]: a value with something besides white
    space is stored, any other removes the entry. *)
Definition persist (key value : string) (m : gmap string string)
  : gmap string string :=
  match trim value with
  | String _ _ => <[storage_key key := value]> m
  | EmptyString => delete (storage_key key) m
  end.

(** The state initializer: [saved || initialValue]. *)
Definition initial (key initialValue : string) (m : gmap string string)
  : string :=
  or_undef (m !! storage_key key) initialValue.

(** First render of the hook over the storage [m], effect included. *)
Definition mount (key initialValue : string) (m : gmap string string) : Form :=
  {| value := initial key initialValue m;
     storage := persist key (initial key initialValue m) m |}.

(** [setValue(v)]: a new value is rendered and the effect runs; the value
    already held changes nothing. *)
Definition setValue (key v : string) (f : Form) : Form :=
  if bool_decide (v = value f) then f
  else {| value := v; storage := persist key v (storage f) |}.

Definition clearPersistedValue (key : string) (f : Form) : Form :=
  setValue key "" {| value := value f;
                     storage := delete (storage_key key) (storage f) |}.

(** What a user of the hook can do with it. *)
Inductive Action :=
  | act_setValue (v : string)
  | act_clear.

Definition act (key : string) (f : Form) (a : Action) : Form :=
  match a with
  | act_setValue v => setValue key v f
  | act_clear => clearPersistedValue key f
  end.

End WithTrim.

(** White space of the ASCII range: space, tab, line feed, vertical tab,
    form feed, carriage return. *)
Definition is_space (c : Ascii.ascii) : bool :=
  bool_decide (Ascii.nat_of_ascii c ∈ [32; 9; 10; 11; 12; 13]).

Fixpoint trimStart (s : string) : string :=
  match s with
  | String c s' => if is_space c then trimStart s' else s
  | EmptyString => EmptyString
  end.

(** [trim] on strings of the ASCII range. *)
Definition trim_ascii (s : string) : string :=
  String.rev (trimStart (String.rev (trimStart s))).

End FormPersist.

(** ** The hooks [useRequireAuth] and [useRequireAdmin] *)

Module RequireAuth.






End RequireAuth.

(** ** Locations *)

Module Router.

(** The [Location] that [useLocation] gives: the [search] is empty or
    starts with a question mark, the [hash] is empty or starts with a
    hash sign. *)
Record Location := {
  pathname : string;
  search : string;
  hash : string;
}.

(** A location as one string, as the guard is given it and records it. *)
Definition href (l : Location) : string :=
  pathname l +:+ search l +:+ hash l.

End Router.

(** ** The page [Login] *)

Module LoginPage.

Record Toast := {
  variant : option string;
  title : string;
  description : string;
}.

(** The page's state, the toasts shown and the navigation made, with the
    store the page logs into. *)
Record Page (S : Type) := {
  isLoading : bool;
  error : option string;
  toasts : list Toast;
  navigated : option (string * bool);
  auth : S;
}.
Arguments isLoading {S} _.
Arguments error {S} _.
Arguments toasts {S} _.
Arguments navigated {S} _.
Arguments auth {S} _.

(** [location.state?.from?.pathname]: of the location the router state
    carries, if any, the page reads the pathname alone. *)
Definition state_from_pathname (state_from : option Router.Location)
  : option string :=
  Router.pathname <$> state_from.

(** [location.state?.from?.pathname || ROUTES.CHAT], from the pathname of
    the location the router state carries, if any. *)
Definition from (state_from : option string) : string :=
  or_undef state_from ROUTES.CHAT.

Section WithStore.
Context {S : Type} (login : ILoginCredentials → Async S unit).

Definition in_store {A} (m : Async S A) : Async (Page S) A :=
  λ p, ((m (auth p)).1,
        {| isLoading := isLoading p; error := error p; toasts := toasts p;
           navigated := navigated p; auth := (m (auth p)).2 |}).

Definition setIsLoading (b : bool) : Async (Page S) unit :=
  modify (λ p, {| isLoading := b; error := error p; toasts := toasts p;
                  navigated := navigated p; auth := auth p |}).

Definition setError (e : option string) : Async (Page S) unit :=
  modify (λ p, {| isLoading := isLoading p; error := e; toasts := toasts p;
                  navigated := navigated p; auth := auth p |}).

Definition toast (t : Toast) : Async (Page S) unit :=
  modify (λ p, {| isLoading := isLoading p; error := error p;
                  toasts := toasts p ++ [t];
                  navigated := navigated p; auth := auth p |}).

Definition navigate (to : string) (replace : bool) : Async (Page S) unit :=
  modify (λ p, {| isLoading := isLoading p; error := error p;
                  toasts := toasts p;
                  navigated := Some (to, replace); auth := auth p |}).

(** [try { body } finally { cleanup }] where the cleanup does not throw. *)
Definition try_finally {A} (body : Async (Page S) A)
    (cleanup : Async (Page S) unit) : Async (Page S) A :=
  λ p, match body p with
       | (r, p') => (r, (cleanup p').2)
       end.

Definition onSubmit (state_from : option string) (data : ILoginCredentials)
  : Async (Page S) unit :=
  setIsLoading true;;
  setError None;;
  try_finally
    (try_catch
       (in_store (login {| cred_email := cred_email data;
                           cred_password := cred_password data |});;
        toast {| variant := None;
                 title := "Welcome back!";
                 description := "You have been logged in successfully." |};;
        navigate (from state_from) true)
       (λ err,
          setError (Some (message err));;
          toast {| variant := Some "destructive";
                   title := "Login failed";
                   description := message err |}))
    (setIsLoading false).

End WithStore.

(** The page as first rendered over a store. *)
Definition fresh {S} (s : S) : Page S :=
  {| isLoading := false; error := None; toasts := []; navigated := None;
     auth := s |}.

End LoginPage.

(** ** The component [Layout] *)

Module Layout.

Record NavItem := {
  path : string;
  label : string;
  show : bool;
}.

Definition navItems (user : option IUser) : list NavItem :=
  [ {| path := ROUTES.CHAT; label := "Chat Support"; show := true |};
    {| path := ROUTES.TICKET_HISTORY; label := "My Tickets"; show := true |};
    {| path := ROUTES.ADMIN_DASHBOARD; label := "Admin Dashboard";
       show := bool_decide (user_role <$> user = Some "admin") |} ].

(** The paths of the links the navigation renders. *)
Definition nav_links (user : option IUser) : list string :=
  path <$> filter (λ item, show item = true) (navItems user).

Definition isActivePath (pathname path : string) : bool :=
  bool_decide (pathname = path).

(** [handleLogout]: the store's [logout] is called and not awaited, then
    the router is sent to the login route. The state is the loop the
    handler runs in and the route navigated to. *)
Definition handleLogout {T} (logout : Call T)
  : Loop T * option string → Loop T * option string :=
  λ lr, (invoke logout lr.1, Some ROUTES.LOGIN).

End Layout.

(** ** The page [ChatInterface] *)

Module Chat.

Inductive MessageType := type_user | type_ai.

Record IChatMessage := {
  msg_id : string;
  msg_type : MessageType;
  msg_content : string;
  msg_timestamp : string;
  msg_ticketId : option string;
}.

(** The body the [ai-chat] function answers with. *)
Record AiReply := {
  reply_response : string;
  reply_ticketId : option string;
}.

(** [{ data, error }] of [supabase.functions.invoke]. *)
Record InvokeResult := {
  invoke_data : option AiReply;
  invoke_error : option JsError;
}.

(** The clock as [onSubmit] reads it: [Date.now()] and
    [new Date().toISOString()] when the question is sent, and again when
    the answer or the failure is turned into a message. *)
Record Clock := {
  now_sent : Z;
  iso_sent : string;
  now_answered : Z;
  iso_answered : string;
}.

(** The page's messages, its loading flag and the toasts shown; the form
    (react-hook-form and the persisted draft) is kept as it is given. *)
Record Page (F : Type) := {
  messages : list IChatMessage;
  isLoading : bool;
  toasts : list LoginPage.Toast;
  form : F;
}.
Arguments messages {F} _.
Arguments isLoading {F} _.
Arguments toasts {F} _.
Arguments form {F} _.

Definition apology : string :=
  "I apologize, but I encountered an error while processing your request. Please try again or contact IT support directly.".

Section WithForm.
Context {F : Type} (reset clearPersistedValue : F → F).

Definition setIsLoading (b : bool) : Async (Page F) unit :=
  modify (λ p, {| messages := messages p; isLoading := b;
                  toasts := toasts p; form := form p |}).

Definition setMessages (f : list IChatMessage → list IChatMessage)
  : Async (Page F) unit :=
  modify (λ p, {| messages := f (messages p); isLoading := isLoading p;
                  toasts := toasts p; form := form p |}).

Definition toast (t : LoginPage.Toast) : Async (Page F) unit :=
  modify (λ p, {| messages := messages p; isLoading := isLoading p;
                  toasts := toasts p ++ [t]; form := form p |}).

Definition on_form (f : F → F) : Async (Page F) unit :=
  modify (λ p, {| messages := messages p; isLoading := isLoading p;
                  toasts := toasts p; form := f (form p) |}).

Definition try_finally {A} (body : Async (Page F) A)
    (cleanup : Async (Page F) unit) : Async (Page F) A :=
  λ p, match body p with
       | (r, p') => (r, (cleanup p').2)
       end.

(** [onSubmit]; [msg] is the message submitted and [invoke] what the
    call of the [ai-chat] function with it settles to. *)
Definition onSubmit (clock : Clock) (invoke : string → settled InvokeResult)
    (msg : string) : Async (Page F) unit :=
  setIsLoading true;;
  let userMessage :=
    {| msg_id := pretty (now_sent clock);
       msg_type := type_user;
       msg_content := msg;
       msg_timestamp := iso_sent clock;
       msg_ticketId := None |} in
  setMessages (λ prev, (prev ++ [userMessage])%list);;
  on_form reset;;
  on_form clearPersistedValue;;
  try_finally
    (try_catch
       (r ← await (invoke msg);
        match invoke_error r with
        | Some error =>
            throw (new_Error (or_str (message error)
                                     "Failed to get AI response"))
        | None =>
            match invoke_data r with
            | Some response =>
                let aiMessage :=
                  {| msg_id := pretty (now_answered clock + 1)%Z;
                     msg_type := type_ai;
                     msg_content := reply_response response;
                     msg_timestamp := iso_answered clock;
                     msg_ticketId := reply_ticketId response |} in
                setMessages (λ prev, (prev ++ [aiMessage])%list);;
                toast {| LoginPage.variant := None;
                         LoginPage.title := "Response received";
                         LoginPage.description :=
                           "AI has analyzed your query and provided a solution." |}
            | None => throw (new_Error "No response received from AI")
            end
        end)
       (λ error,
          let errorMessage :=
            {| msg_id := pretty (now_answered clock + 1)%Z;
               msg_type := type_ai;
               msg_content := apology;
               msg_timestamp := iso_answered clock;
               msg_ticketId := None |} in
          setMessages (λ prev, (prev ++ [errorMessage])%list);;
          toast {| LoginPage.variant := Some "destructive";
                   LoginPage.title := "Error";
                   LoginPage.description :=
                     or_str (message error)
                            "Failed to get response" |}))
    (setIsLoading false).

End WithForm.

End Chat.

(** ** The page [TicketHistory] and the component [TicketItem] *)

Module TicketHistory.
Import ticket.

(** [s.includes(sub)]. *)
Fixpoint includes (s sub : string) : bool :=
  String.prefix sub s
  || match s with
     | String _ s' => includes s' sub
     | EmptyString => false
     end.

(** The values of [TICKET_STATUSES], in order. *)
Definition TICKET_STATUSES : list string :=
  ["open"; "in_progress"; "resolved"; "closed"].

Definition getStatusCount (tickets : list ITicket) (status : string) : nat :=
  length (filter (λ t, Status_literal (ticket_status t) = status) tickets).

Section WithLowerCase.
(** [String.prototype.toLowerCase]. *)
Context (toLowerCase : string → string).

Definition matches (searchTerm statusFilter priorityFilter : string)
    (t : ITicket) : bool :=
  let matchesSearch :=
    includes (toLowerCase (ticket_title t)) (toLowerCase searchTerm)
    || includes (toLowerCase (ticket_description t)) (toLowerCase searchTerm)
    || includes (toLowerCase (ticket_id t)) (toLowerCase searchTerm) in
  let matchesStatus :=
    bool_decide (statusFilter = "all")
    || bool_decide (Status_literal (ticket_status t) = statusFilter) in
  let matchesPriority :=
    bool_decide (priorityFilter = "all")
    || bool_decide (Priority_literal (ticket_priority t) = priorityFilter) in
  matchesSearch && matchesStatus && matchesPriority.

Definition filteredTickets (searchTerm statusFilter priorityFilter : string)
    (tickets : list ITicket) : list ITicket :=
  filter (λ t, matches searchTerm statusFilter priorityFilter t = true)
         tickets.

End WithLowerCase.

(** [toLowerCase] on strings of the ASCII range. *)
Definition lower_ascii (c : Ascii.ascii) : Ascii.ascii :=
  let n := Ascii.nat_of_ascii c in
  if (65 <=? n)%nat && (n <=? 90)%nat then Ascii.ascii_of_nat (n + 32) else c.

Fixpoint toLowerCase_ascii (s : string) : string :=
  match s with
  | String c s' => String (lower_ascii c) (toLowerCase_ascii s')
  | EmptyString => EmptyString
  end.

(** [TicketItem]: whether the Reopen button is rendered. *)
Definition reopen_shown (showActions onReopen : bool) (t : ITicket) : bool :=
  showActions && bool_decide (ticket_status t = resolved) && onReopen.

(** The page's refresh flag and toasts, over the ticket store. *)
Record Page := {
  isRefreshing : bool;
  toasts : list LoginPage.Toast;
  app : TicketStore.App;
}.

Definition in_app {A} (m : Async TicketStore.App A) : Async Page A :=
  λ p, ((m (app p)).1,
        {| isRefreshing := isRefreshing p; toasts := toasts p;
           app := (m (app p)).2 |}).

Definition setIsRefreshing (b : bool) : Async Page unit :=
  modify (λ p, {| isRefreshing := b; toasts := toasts p; app := app p |}).

Definition toast (t : LoginPage.Toast) : Async Page unit :=
  modify (λ p, {| isRefreshing := isRefreshing p; toasts := toasts p ++ [t];
                  app := app p |}).

Definition try_finally {A} (body : Async Page A) (cleanup : Async Page unit)
  : Async Page A :=
  λ p, match body p with
       | (r, p') => (r, (cleanup p').2)
       end.

Definition refreshed : LoginPage.Toast :=
  {| LoginPage.variant := None;
     LoginPage.title := "Refreshed";
     LoginPage.description := "Ticket list has been updated." |}.

Definition handleRefresh (b : Backend) : Async Page unit :=
  setIsRefreshing true;;
  try_finally
    (try_catch
       (in_app (TicketStore.fetchTickets b);;
        toast refreshed)
       (λ error,
          toast {| LoginPage.variant := Some "destructive";
                   LoginPage.title := "Failed to refresh";
                   LoginPage.description := "Could not update ticket list." |}))
    (setIsRefreshing false).

(** [{ status: 'open' }]. *)
Definition reopen_patch : PartialITicket :=
  {| partial_id := None; partial_title := None; partial_description := None;
     partial_status := Some open; partial_priority := None;
     partial_category := None; partial_userId := None;
     partial_assignedTo := None; partial_aiResponse := None;
     partial_createdAt := None; partial_updatedAt := None;
     partial_resolvedAt := None; partial_user := None;
     partial_assignedAgent := None |}.

Definition handleReopenTicket (b : Backend) (ticketId : string)
  : Async Page unit :=
  try_catch
    (in_app (TicketStore.updateTicket b ticketId reopen_patch);;
     toast {| LoginPage.variant := None;
              LoginPage.title := "Ticket reopened";
              LoginPage.description :=
                "Your ticket has been reopened and will be reviewed by our team." |})
    (λ error,
       toast {| LoginPage.variant := Some "destructive";
                LoginPage.title := "Failed to reopen ticket";
                LoginPage.description := message error |}).

End TicketHistory.

(** ** Sample tickets and back ends *)

Module TicketScenario.
Import ticket.

Definition ticket_1 : ITicket :=
  {| ticket_id := "tkt-000001"; ticket_title := "Printer offline";
     ticket_description := "The printer on floor 2 does not answer";
     ticket_status := resolved; ticket_priority := low;
     ticket_category := "Printer & Peripherals"; ticket_userId := "1";
     ticket_assignedTo := None; ticket_aiResponse := None;
     ticket_createdAt := "2024-01-01"; ticket_updatedAt := "2024-01-02";
     ticket_resolvedAt := Some "2024-01-02";
     ticket_user := None; ticket_assignedAgent := None |}.

Definition ticket_2 : ITicket :=
  {| ticket_id := "tkt-000002"; ticket_title := "VPN drops";
     ticket_description := "The VPN disconnects every hour";
     ticket_status := open; ticket_priority := high;
     ticket_category := "Network Connectivity"; ticket_userId := "1";
     ticket_assignedTo := None; ticket_aiResponse := None;
     ticket_createdAt := "2024-01-03"; ticket_updatedAt := "2024-01-03";
     ticket_resolvedAt := None;
     ticket_user := None; ticket_assignedAgent := None |}.

Definition ticket_3 : ITicket :=
  {| ticket_id := "tkt-000003"; ticket_title := "Mailbox full";
     ticket_description := "Cannot receive mail";
     ticket_status := open; ticket_priority := medium;
     ticket_category := "Email & Communication"; ticket_userId := "1";
     ticket_assignedTo := None; ticket_aiResponse := None;
     ticket_createdAt := "2024-01-04"; ticket_updatedAt := "2024-01-04";
     ticket_resolvedAt := None;
     ticket_user := None; ticket_assignedAgent := None |}.

(** [ticket_1] as the back end returns it once reopened. *)
Definition ticket_1_reopened : ITicket :=
  {| ticket_id := "tkt-000001"; ticket_title := "Printer offline";
     ticket_description := "The printer on floor 2 does not answer";
     ticket_status := open; ticket_priority := low;
     ticket_category := "Printer & Peripherals"; ticket_userId := "1";
     ticket_assignedTo := None; ticket_aiResponse := None;
     ticket_createdAt := "2024-01-01"; ticket_updatedAt := "2024-01-05";
     ticket_resolvedAt := None;
     ticket_user := None; ticket_assignedAgent := None |}.

Definition answer {T} (d : option T) : IApiResponse T :=
  {| resp_success := true; resp_data := d;
     resp_message := None; resp_error := None |}.

Definition refusal {T} (m : string) : IApiResponse T :=
  {| resp_success := false; resp_data := None;
     resp_message := Some m; resp_error := None |}.

Definition backend : Backend :=
  {| get_tickets := λ _, Fulfilled (answer (Some [ticket_1; ticket_2]));
     get_ticket := λ _ _, Fulfilled (answer (Some ticket_1));
     post_tickets := λ _ _, Fulfilled (answer (Some ticket_3));
     patch_ticket := λ _ _ _, Fulfilled (answer (Some ticket_1_reopened));
     delete_ticket := λ _ _, Fulfilled (answer None);
     post_tickets_query := λ _ _, Fulfilled (answer (Some ("Restart it", "tkt-000003"))) |}.

(** A back end that is down for the list and refuses every change. *)
Definition failing_backend : Backend :=
  {| get_tickets := λ _, Rejected (new_Error "Network Error");
     get_ticket := λ _ _, Fulfilled (refusal "Ticket not found");
     post_tickets := λ _ _, Fulfilled (refusal "Title is required");
     patch_ticket := λ _ _ _, Fulfilled (refusal "Ticket not found");
     delete_ticket := λ _ _, Fulfilled (refusal "Ticket not found");
     post_tickets_query := λ _ _, Rejected (new_Error "Network Error") |}.

Definition app : TicketStore.App :=
  {| TicketStore.browser := Scenario.browser;
     TicketStore.state := {| tickets := [ticket_1; ticket_2];
                             loading := false;
                             error := None |} |}.

End TicketScenario.

(** ** What the further properties speak about *)

(** A request the back end answered with success and the data [d]. *)
Definition api_succeeded {T} (o : settled (IApiResponse T)) (d : T) : Prop :=
  ∃ r, o = Fulfilled r ∧ resp_success r = true ∧ resp_data r = Some d.

(** A request the back end answered with success, with or without data. *)
Definition api_acknowledged {T} (o : settled (IApiResponse T)) : Prop :=
  ∃ r, o = Fulfilled r ∧ resp_success r = true.

(** A request rejected, or answered without success. *)
Definition api_refused {T} (o : settled (IApiResponse T)) : Prop :=
  match o with
  | Rejected _ => True
  | Fulfilled r => resp_success r = false
  end.

(** * Proofs *)

(** ** Strings *)

Lemma append_empty_r (s : string) : s +:+ "" = s.
Proof.
  induction s as [|c s IH]; [done |].
  change (String c (s +:+ "") = String c s). by rewrite IH.
Qed.

Lemma contains_refl (s : string) : contains s s.
Proof. exists "", "". symmetry. apply append_empty_r. Qed.

Lemma contains_empty (s : string) : contains s "".
Proof. by exists "", s. Qed.

Lemma or_str_contains (a d : string) : contains (or_str a d) a.
Proof. destruct a; simpl; [apply contains_empty | apply contains_refl]. Qed.

Lemma or_str_nonempty (a d : string) : a ≠ "" → or_str a d = a.
Proof. by destruct a. Qed.

Lemma truthy_str_Some (a : option string) :
  truthy_str a = true → ∃ t, a = Some t ∧ t ≠ "".
Proof. destruct a as [[|c t]|]; naive_solver. Qed.

(** ** The monad *)

Section AsyncLaws.
Context {S A B : Type}.
Implicit Types (s : S) (e : JsError).

Lemma bind_run (m : Async S A) (k : A → Async S B) s a s' :
  m s = (Normal a, s') → (m ≫= k) s = k a s'.
Proof. unfold mbind, Async_bind, bind. by intros ->. Qed.

Lemma bind_run_throw (m : Async S A) (k : A → Async S B) s e s' :
  m s = (Throw e, s') → (m ≫= k) s = (Throw e, s').
Proof. unfold mbind, Async_bind, bind. by intros ->. Qed.

Lemma try_catch_normal (m : Async S A) h s a s' :
  m s = (Normal a, s') → try_catch m h s = (Normal a, s').
Proof. unfold try_catch. by intros ->. Qed.

Lemma try_catch_throw (m : Async S A) h s e s' :
  m s = (Throw e, s') → try_catch m h s = h e s'.
Proof. unfold try_catch. by intros ->. Qed.

End AsyncLaws.

(** ** The Supabase store, method by method *)

Module SupabaseFacts.
Import supabase_js SupabaseStore.

Ltac run_store :=
  unfold login, register, logout, checkAuth, set, put, try_catch, await,
    mbind, mret, Async_bind, Async_ret, bind, ret, throw;
  simpl.

Section Login.
Context (supabase : AuthClient) (credentials : ILoginCredentials).
Implicit Types (s : IAuthStore) (r : AuthResponse) (e : JsError).

Lemma login_rejected e s :
  signInWithPassword supabase (signIn_request credentials) = Rejected e →
  login supabase credentials s
  = (Throw (new_Error (or_str (message e) "Login failed")), s).
Proof. intros H. run_store. by rewrite H. Qed.

Lemma login_error r e s :
  signInWithPassword supabase (signIn_request credentials) = Fulfilled r →
  error r = Some e →
  login supabase credentials s
  = (Throw (new_Error (or_str (message e) "Login failed")), s).
Proof. intros H He. run_store. by rewrite H, He. Qed.

Lemma login_signed_in r u ss s :
  signInWithPassword supabase (signIn_request credentials) = Fulfilled r →
  error r = None → data_user r = Some u → data_session r = Some ss →
  login supabase credentials s
  = (Normal (), signed_in (toIUser u) (access_token ss)).
Proof. intros H He Hu Hs. run_store. by rewrite H, He, Hu, Hs. Qed.

Lemma login_incomplete r s :
  signInWithPassword supabase (signIn_request credentials) = Fulfilled r →
  error r = None → data_user r = None ∨ data_session r = None →
  login supabase credentials s = (Normal (), s).
Proof.
  intros H He Hmiss. run_store. rewrite H, He.
  destruct Hmiss as [-> | ->]; [done | by destruct (data_user r)].
Qed.

(** Whatever the provider answers, [login] leaves the store as it was or
    signs in. *)
Lemma login_cases s :
  (login supabase credentials s).2 = s
  ∨ ∃ u t, (login supabase credentials s).2 = signed_in u t.
Proof.
  run_store.
  destruct (signInWithPassword supabase _) as [r|e]; [|by left].
  destruct (error r); [by left|].
  destruct (data_user r), (data_session r); simpl; eauto.
Qed.

End Login.

Section Register.
Context (origin : string) (supabase : AuthClient) (userData : IRegisterData).
Implicit Types (s : IAuthStore) (r : AuthResponse) (e : JsError).

Lemma register_signed_in r u ss s :
  signUp supabase (signUp_request origin userData) = Fulfilled r →
  error r = None → data_user r = Some u → data_session r = Some ss →
  register origin supabase userData s
  = (Normal (), signed_in (registered userData u) (access_token ss)).
Proof. intros H He Hu Hs. run_store. by rewrite H, He, Hu, Hs. Qed.

Lemma register_incomplete r s :
  signUp supabase (signUp_request origin userData) = Fulfilled r →
  error r = None → data_user r = None ∨ data_session r = None →
  register origin supabase userData s = (Normal (), s).
Proof.
  intros H He Hmiss. run_store. rewrite H, He.
  destruct Hmiss as [-> | ->]; [done | by destruct (data_user r)].
Qed.

Lemma register_cases s :
  (register origin supabase userData s).2 = s
  ∨ ∃ u t, (register origin supabase userData s).2 = signed_in u t.
Proof.
  run_store.
  destruct (signUp supabase _) as [r|e]; [|by left].
  destruct (error r); [by left|].
  destruct (data_user r), (data_session r); simpl; eauto.
Qed.

End Register.

Section Reconcile.
Context (supabase : AuthClient).
Implicit Types (s : IAuthStore).

Lemma logout_run s : logout supabase s = (Normal (), signed_out).
Proof. run_store. by destruct (signOut supabase). Qed.

Lemma checkAuth_valid ss s :
  supabase_valid_session supabase ss →
  checkAuth supabase s
  = (Normal (), signed_in (toIUser (supabase_js.user ss)) (access_token ss)).
Proof. intros (r & H & Hs). run_store. by rewrite H, Hs. Qed.

Lemma checkAuth_invalid s :
  (∀ ss, ¬ supabase_valid_session supabase ss) →
  checkAuth supabase s = (Normal (), signed_out).
Proof.
  intros Hno. run_store.
  destruct (getSession supabase) as [r|e] eqn:H; [|done].
  destruct (session r) as [ss|] eqn:Hs; [|done].
  destruct (Hno ss). by exists r.
Qed.

(** [checkAuth] does not read the store it overwrites. *)
Lemma checkAuth_const s1 s2 : checkAuth supabase s1 = checkAuth supabase s2.
Proof.
  run_store. destruct (getSession supabase) as [r|e]; [|done].
  by destruct (session r).
Qed.

Lemma checkAuth_cases s :
  checkAuth supabase s = (Normal (), signed_out)
  ∨ ∃ u t, checkAuth supabase s = (Normal (), signed_in u t).
Proof.
  run_store. destruct (getSession supabase) as [r|e]; [|by left].
  destruct (session r); eauto.
Qed.

End Reconcile.

End SupabaseFacts.

(** ** The API store, method by method *)

Module ApiFacts.
Import api ApiStore.

Ltac run_api :=
  unfold login, register, logout, checkAuth, set, failure_message,
    authAPI.login, authAPI.register, authAPI.verifyToken, authAPI.logout,
    request, request_interceptor, response_interceptor,
    Storage.getItem, Storage.setItem, Storage.removeItem, assign_href,
    modify, try_catch, mbind, mret, Async_bind, Async_ret, bind, ret, throw,
    authorization in *;
  cbv beta iota.

(** What a request does to the browser: nothing when it is answered; when
    it is rejected the store is still untouched, and the token is gone from
    the storage or the storage is as before. *)
Lemma request_fulfilled {A} (send : option string → settled A) w a :
  send (authorization w) = Fulfilled a → request send w = (Normal a, w).
Proof. intros H. run_api. by rewrite H. Qed.

Lemma request_rejected {A} (send : option string → settled A) w e :
  send (authorization w) = Rejected e →
  ∃ w', request send w = (Throw e, w') ∧ store w' = store w
        ∧ (localStorage w' = localStorage w
           ∨ localStorage w'
             = delete LOCAL_STORAGE_KEYS.AUTH_TOKEN (localStorage w)).
Proof.
  intros H. run_api. rewrite H. cbv beta iota.
  case_bool_decide; eauto.
Qed.

Lemma or_str_twice_contains (m d : string) : contains (or_str (or_str m d) d) m.
Proof. destruct m; [apply contains_empty | apply contains_refl]. Qed.

(** The message [login] and [register] reject with carries the one the
    back end gave. *)
Lemma failure_message_contains {T} (o : settled (IApiResponse T)) d e m :
  match o with
  | Rejected e' => e = e'
  | Fulfilled r => e = new_Error (or_undef (resp_message r) d)
  end →
  api_provider_message o = Some m →
  contains (failure_message e d) m.
Proof.
  unfold failure_message. destruct o as [r|e']; simpl.
  - intros -> ->. simpl. apply or_str_twice_contains.
  - intros -> [= <-].
    destruct (response e' ≫= data_message) as [m|]; simpl;
      apply or_str_contains.
Qed.

Section Login.
Context (b : Backend) (credentials : ILoginCredentials).
Implicit Types (w : Browser) (r : IApiResponse (IUser * string)).

Lemma api_login_signed_in w r u t :
  post_auth_login b (authorization w) credentials = Fulfilled r →
  resp_success r = true → resp_data r = Some (u, t) →
  login b credentials w
  = (Normal (),
     with_store (signed_in u t)
       (with_storage (<[LOCAL_STORAGE_KEYS.AUTH_TOKEN := t]> (localStorage w)) w)).
Proof.
  intros H Hs Hd. unfold login.
  apply try_catch_normal.
  erewrite bind_run; [|by apply request_fulfilled].
  by rewrite Hs, Hd.
Qed.

Lemma api_login_failed w :
  let o := post_auth_login b (authorization w) credentials in
  api_failed o →
  ∃ e w', login b credentials w
          = (Throw (new_Error (failure_message e "Login failed")), w')
          ∧ store w' = store w
          ∧ ∀ m, api_provider_message o = Some m →
                 contains (failure_message e "Login failed") m.
Proof.
  intros o Hfail. unfold login.
  destruct o as [r|e] eqn:Ho; subst o.
  - exists (new_Error (or_undef (resp_message r) "Login failed")), w.
    split; [|split; [done|]].
    + erewrite try_catch_throw; [done|].
      erewrite bind_run; [|by apply request_fulfilled].
      destruct Hfail as [-> | ->]; [done | by destruct (resp_success r)].
    + intros m. by apply (failure_message_contains (Fulfilled r)).
  - destruct (request_rejected (λ h, post_auth_login b h credentials) _ _ Ho)
      as (w' & Hrun & Hst & _).
    exists e, w'. split; [|split; [done|]].
    + erewrite try_catch_throw; [done|].
      by erewrite bind_run_throw.
    + intros m. by apply (failure_message_contains (Rejected e)).
Qed.

Lemma api_login_cases w :
  store (login b credentials w).2 = store w
  ∨ ∃ u t, store (login b credentials w).2 = signed_in u t.
Proof.
  destruct (post_auth_login b (authorization w) credentials) as [r|e] eqn:Ho.
  - destruct (resp_success r) eqn:Hs, (resp_data r) as [[u t]|] eqn:Hd.
    + right. exists u, t. by rewrite (api_login_signed_in _ _ _ _ Ho Hs Hd).
    + left. destruct (api_login_failed w) as (e & w' & -> & ? & _); [|done].
      rewrite Ho. by right.
    + left. destruct (api_login_failed w) as (e & w' & -> & ? & _); [|done].
      rewrite Ho. by left.
    + left. destruct (api_login_failed w) as (e & w' & -> & ? & _); [|done].
      rewrite Ho. by left.
  - left. destruct (api_login_failed w) as (e' & w' & -> & ? & _); [|done].
    by rewrite Ho.
Qed.

End Login.

Section Register.
Context (b : Backend) (userData : IRegisterData).
Implicit Types (w : Browser) (r : IApiResponse (IUser * string)).

Lemma api_register_signed_in w r u t :
  post_auth_register b (authorization w) userData = Fulfilled r →
  resp_success r = true → resp_data r = Some (u, t) →
  register b userData w
  = (Normal (),
     with_store (signed_in u t)
       (with_storage (<[LOCAL_STORAGE_KEYS.AUTH_TOKEN := t]> (localStorage w)) w)).
Proof.
  intros H Hs Hd. unfold register.
  apply try_catch_normal.
  erewrite bind_run; [|by apply request_fulfilled].
  by rewrite Hs, Hd.
Qed.

Lemma api_register_failed w :
  let o := post_auth_register b (authorization w) userData in
  api_failed o →
  ∃ e w', register b userData w
          = (Throw (new_Error (failure_message e "Registration failed")), w')
          ∧ store w' = store w
          ∧ ∀ m, api_provider_message o = Some m →
                 contains (failure_message e "Registration failed") m.
Proof.
  intros o Hfail. unfold register.
  destruct o as [r|e] eqn:Ho; subst o.
  - exists (new_Error (or_undef (resp_message r) "Registration failed")), w.
    split; [|split; [done|]].
    + erewrite try_catch_throw; [done|].
      erewrite bind_run; [|by apply request_fulfilled].
      destruct Hfail as [-> | ->]; [done | by destruct (resp_success r)].
    + intros m. by apply (failure_message_contains (Fulfilled r)).
  - destruct (request_rejected (λ h, post_auth_register b h userData) _ _ Ho)
      as (w' & Hrun & Hst & _).
    exists e, w'. split; [|split; [done|]].
    + erewrite try_catch_throw; [done|].
      by erewrite bind_run_throw.
    + intros m. by apply (failure_message_contains (Rejected e)).
Qed.

Lemma api_register_cases w :
  store (register b userData w).2 = store w
  ∨ ∃ u t, store (register b userData w).2 = signed_in u t.
Proof.
  destruct (post_auth_register b (authorization w) userData) as [r|e] eqn:Ho.
  - destruct (resp_success r) eqn:Hs, (resp_data r) as [[u t]|] eqn:Hd;
      [right; exists u, t; by rewrite (api_register_signed_in _ _ _ _ Ho Hs Hd)|..];
      left; (destruct (api_register_failed w) as (e & w' & -> & ? & _); [|done]);
      rewrite Ho; simpl; auto.
  - left. destruct (api_register_failed w) as (e' & w' & -> & ? & _); [|done].
    by rewrite Ho.
Qed.

End Register.

Section Reconcile.
Context (b : Backend).
Implicit Types (w : Browser).

Lemma api_logout_run w :
  ∃ w', logout b w = (Normal (), w') ∧ store w' = signed_out
        ∧ localStorage w' !! LOCAL_STORAGE_KEYS.AUTH_TOKEN = None.
Proof.
  unfold logout.
  set (w1 := with_store signed_out
               (with_storage
                  (delete LOCAL_STORAGE_KEYS.AUTH_TOKEN (localStorage w)) w)).
  assert (Hls : localStorage w1 !! LOCAL_STORAGE_KEYS.AUTH_TOKEN = None)
    by apply lookup_delete_eq.
  change (∃ w', try_catch (_ ← authAPI.logout b; mret ()) (λ _, mret ()) w1
                = (Normal (), w') ∧ store w' = signed_out
                ∧ localStorage w' !! LOCAL_STORAGE_KEYS.AUTH_TOKEN = None).
  destruct (post_auth_logout b (authorization w1)) as [r|e] eqn:Ho.
  - exists w1. split; [|done]. apply try_catch_normal.
    erewrite bind_run; [done|]. by apply request_fulfilled.
  - destruct (request_rejected (post_auth_logout b) _ _ Ho)
      as (w' & Hrun & Hst & Hls').
    exists w'. split; [|split; [done|]].
    + erewrite try_catch_throw; [done|]. by erewrite bind_run_throw.
    + destruct Hls' as [-> | ->]; [done | apply lookup_delete_eq].
Qed.

Lemma api_checkAuth_no_token w :
  truthy_str (localStorage w !! LOCAL_STORAGE_KEYS.AUTH_TOKEN) = false →
  checkAuth b w = (Normal (), with_store signed_out w).
Proof.
  intros H. unfold checkAuth.
  erewrite bind_run; [|reflexivity]. by rewrite H.
Qed.

Lemma api_checkAuth_valid w u t :
  api_valid_session b w u t →
  checkAuth b w = (Normal (), with_store (signed_in u t) w).
Proof.
  intros (Ht & Htruthy & r & Ho & Hs & Hd). unfold checkAuth.
  erewrite bind_run; [|reflexivity]. rewrite Ht, Htruthy.
  change (negb true) with false. cbv iota. apply try_catch_normal.
  erewrite bind_run; [|by apply request_fulfilled].
  by rewrite Hs, Hd.
Qed.

Lemma api_checkAuth_invalid w :
  truthy_str (localStorage w !! LOCAL_STORAGE_KEYS.AUTH_TOKEN) = true →
  (∀ u t, ¬ api_valid_session b w u t) →
  ∃ w', checkAuth b w = (Normal (), w') ∧ store w' = signed_out
        ∧ localStorage w' !! LOCAL_STORAGE_KEYS.AUTH_TOKEN = None.
Proof.
  intros Htruthy Hno. unfold checkAuth.
  erewrite bind_run; [|reflexivity]. rewrite Htruthy.
  change (negb true) with false. cbv iota.
  destruct (truthy_str_Some _ Htruthy) as (t & Ht & _).
  destruct (get_auth_verify b (authorization w)) as [r|e] eqn:Ho.
  - destruct (resp_success r) eqn:Hs, (resp_data r) as [u|] eqn:Hd;
      [destruct (Hno u t); split; [done|]; split; [by rewrite <- Ht|];
       by exists r|..];
      (eexists; split;
       [erewrite try_catch_throw; [reflexivity|];
        erewrite bind_run; [|by apply request_fulfilled];
        by rewrite Hs, ?Hd
       |split; [done | apply lookup_delete_eq]]).
  - destruct (request_rejected (get_auth_verify b) _ _ Ho)
      as (w' & Hrun & Hst & _).
    eexists; split;
      [erewrite try_catch_throw; [reflexivity|]; by erewrite bind_run_throw
      |split; [done | apply lookup_delete_eq]].
Qed.

(** The three ways a session check can go. *)
Lemma api_checkAuth_cases w :
  truthy_str (localStorage w !! LOCAL_STORAGE_KEYS.AUTH_TOKEN) = false
  ∨ (∃ u t, api_valid_session b w u t)
  ∨ (∀ u t, ¬ api_valid_session b w u t)
    ∧ truthy_str (localStorage w !! LOCAL_STORAGE_KEYS.AUTH_TOKEN) = true.
Proof.
  destruct (truthy_str (localStorage w !! LOCAL_STORAGE_KEYS.AUTH_TOKEN))
    eqn:Htruthy; [|by left].
  right. destruct (truthy_str_Some _ Htruthy) as (t & Ht & _).
  destruct (get_auth_verify b (authorization w)) as [r|e] eqn:Ho.
  - destruct (resp_success r) eqn:Hs, (resp_data r) as [u|] eqn:Hd;
      [left; exists u, t; split; [done|]; split; [by rewrite <- Ht|];
       by exists r|..];
      right; (split; [|done]); intros u' t' (_ & _ & r' & Hr' & Hs' & Hd');
      congruence.
  - right. split; [|done]. intros u' t' (_ & _ & r' & Hr' & _). congruence.
Qed.

End Reconcile.

End ApiFacts.

(** ** The session invariant *)

Lemma invariant_signed_out : session_invariant signed_out.
Proof. split; [done | by intros [[? [=]] _]]. Qed.

Lemma invariant_signed_in u t : session_invariant (signed_in u t).
Proof. split; [|done]. intros _. split; eauto. Qed.

Lemma supabase_perform_cases (o : SupabaseOps.Op) (s : IAuthStore) :
  (SupabaseOps.perform o s).2 = s
  ∨ (SupabaseOps.perform o s).2 = signed_out
  ∨ ∃ u t, (SupabaseOps.perform o s).2 = signed_in u t.
Proof.
  destruct o as [supabase c | origin supabase d | supabase | supabase]; simpl.
  - destruct (SupabaseFacts.login_cases supabase c s); auto.
  - destruct (SupabaseFacts.register_cases origin supabase d s); auto.
  - rewrite SupabaseFacts.logout_run. auto.
  - destruct (SupabaseFacts.checkAuth_cases supabase s) as [-> | (u & t & ->)];
      eauto.
Qed.

Lemma api_perform_cases (o : ApiOps.Op) (w : Browser) :
  store (ApiOps.perform o w).2 = store w
  ∨ store (ApiOps.perform o w).2 = signed_out
  ∨ ∃ u t, store (ApiOps.perform o w).2 = signed_in u t.
Proof.
  destruct o as [b c | b d | b | b]; simpl.
  - destruct (ApiFacts.api_login_cases b c w); auto.
  - destruct (ApiFacts.api_register_cases b d w); auto.
  - destruct (ApiFacts.api_logout_run b w) as (w' & -> & ? & _). auto.
  - destruct (ApiFacts.api_checkAuth_cases b w) as [Ht | [(u & t & Hv) | [Hno Ht]]].
    + rewrite (ApiFacts.api_checkAuth_no_token _ _ Ht). auto.
    + rewrite (ApiFacts.api_checkAuth_valid _ _ _ _ Hv). eauto.
    + destruct (ApiFacts.api_checkAuth_invalid b w Ht Hno) as (w' & -> & ? & _).
      auto.
Qed.

Lemma invariant_of_cases (s s' : IAuthStore) :
  session_invariant s →
  s' = s ∨ s' = signed_out ∨ (∃ u t, s' = signed_in u t) →
  session_invariant s'.
Proof.
  intros Hs [-> | [-> | (u & t & ->)]];
    auto using invariant_signed_out, invariant_signed_in.
Qed.

Lemma supabase_after_invariant (ops : list SupabaseOps.Op) (s : IAuthStore) :
  session_invariant s → session_invariant (SupabaseOps.after ops s).
Proof.
  revert s. induction ops as [|o ops IH]; intros s Hs; [done|].
  apply IH. eapply invariant_of_cases; [done|]. apply supabase_perform_cases.
Qed.

Lemma api_after_invariant (ops : list ApiOps.Op) (w : Browser) :
  session_invariant (store w) → session_invariant (store (ApiOps.after ops w)).
Proof.
  revert w. induction ops as [|o ops IH]; intros w Hw; [done|].
  apply IH. eapply invariant_of_cases; [done|]. apply api_perform_cases.
Qed.

(** C1. In every state the store can reach, from its initial state through
    any sequence of completed [login], [register], [logout] and [checkAuth]
    calls, each with any answer of the provider, [isAuthenticated] is true
    if and only if [user] and [token] are both present. This holds for the
    Supabase store and for the API store (whatever [localStorage] held at
    the start). *)
Theorem session_invariant_reachable :
  (∀ ops : list SupabaseOps.Op,
     let s := SupabaseOps.after ops signed_out in
     isAuthenticated s = true ↔ is_Some (types.user s) ∧ is_Some (token s))
  ∧ (∀ (ops : list ApiOps.Op) (storage : gmap string string) (href : string),
       let s := store (ApiOps.after ops (ApiOps.fresh storage href)) in
       isAuthenticated s = true ↔ is_Some (types.user s) ∧ is_Some (token s)).
Proof.
  split.
  - intros ops. apply supabase_after_invariant, invariant_signed_out.
  - intros ops storage href. apply api_after_invariant, invariant_signed_out.
Qed.

(** ** The route guard *)

Section GuardCases.
Import Guard.
Context (requireRole : option Role) (location : string).

(** The branch the claim does not speak of: flagged authenticated while the
    user record has not arrived. *)
Lemma ProtectedRoute_checking :
  ProtectedRoute (Some true) None requireRole location = Skeleton
  ∧ ProtectedRoute None None requireRole location = Skeleton.
Proof. done. Qed.

Lemma ProtectedRoute_unauthenticated (user : option IUser) :
  ProtectedRoute (Some false) user requireRole location
  = Navigate ROUTES.LOGIN (Some location) true.
Proof. done. Qed.

Lemma ProtectedRoute_forbidden (u : IUser) (r : Role) :
  requireRole = Some r → user_role u ≠ Role_literal r →
  ProtectedRoute (Some true) (Some u) requireRole location
  = Navigate (match r with role_admin => ROUTES.LOGIN | _ => ROUTES.HOME end)
             None true.
Proof.
  intros -> Hne. unfold ProtectedRoute. simpl.
  rewrite bool_decide_eq_true_2 by congruence. by destruct r.
Qed.

Lemma ProtectedRoute_authorized (u : IUser) :
  requireRole = None
  ∨ (∃ r, requireRole = Some r ∧ user_role u = Role_literal r) →
  ProtectedRoute (Some true) (Some u) requireRole location = children.
Proof.
  intros [-> | (r & -> & Hr)]; [done|].
  unfold ProtectedRoute. simpl.
  rewrite bool_decide_eq_false_2; [done|]. rewrite Hr. by intros [].
Qed.

End GuardCases.

(** Over a store reached from the initial one the guard never shows the
    skeleton: the flag is not set without a user. *)
Lemma render_reachable_decided (ops : list SupabaseOps.Op)
    (requireRole : option Guard.Role) (location : string) :
  Guard.render (SupabaseOps.after ops signed_out) requireRole location
  ≠ Guard.Skeleton.
Proof.
  pose proof (supabase_after_invariant ops signed_out invariant_signed_out)
    as Hinv.
  unfold Guard.render, Guard.ProtectedRoute.
  destruct (SupabaseOps.after ops signed_out) as [u t [|]]; simpl in *.
  - destruct (proj1 Hinv eq_refl) as [[u' Hu] _]. simpl in Hu. subst u.
    simpl. destruct requireRole; [case_bool_decide|]; done.
  - done.
Qed.

(** C2. The decision of [ProtectedRoute]. With [isAuthenticated] false it
    redirects to the login route and records the requested location. With
    an authenticated user whose role is not the required one it redirects,
    recording nothing, to login when the required role is admin and to home
    otherwise. With an authenticated user and no required role, or the
    required role, it renders its children. *)
Theorem ProtectedRoute_decision
    (user : option IUser) (requireRole : option Guard.Role)
    (location : string) :
  Guard.ProtectedRoute (Some false) user requireRole location
  = Guard.Navigate ROUTES.LOGIN (Some location) true
  ∧ (∀ u r,
       user = Some u → requireRole = Some r →
       user_role u ≠ Guard.Role_literal r →
       Guard.ProtectedRoute (Some true) user requireRole location
       = Guard.Navigate
           (if bool_decide (r = Guard.role_admin) then ROUTES.LOGIN
            else ROUTES.HOME)
           None true)
  ∧ (∀ u,
       user = Some u →
       requireRole = None
       ∨ (∃ r, requireRole = Some r ∧ user_role u = Guard.Role_literal r) →
       Guard.ProtectedRoute (Some true) user requireRole location
       = Guard.children).
Proof.
  split; [apply ProtectedRoute_unauthenticated|]. split.
  - intros u r -> Hr Hne.
    rewrite (ProtectedRoute_forbidden _ _ u r Hr Hne). by destruct r.
  - intros u -> H. by apply ProtectedRoute_authorized.
Qed.

(** The three cases of the route-guard test: signed out, a plain user on an
    admin route, an administrator on an admin route. *)
Lemma ProtectedRoute_decision_witness :
  Guard.ProtectedRoute (Some false) None (Some Guard.role_admin)
    "/admin/dashboard"
  = Guard.Navigate "/auth/login" (Some "/admin/dashboard") true
  ∧ Guard.ProtectedRoute (Some true) (Some Scenario.plain_user)
      (Some Guard.role_admin) "/admin/dashboard"
    = Guard.Navigate "/auth/login" None true
  ∧ Guard.ProtectedRoute (Some true) (Some Scenario.admin_user)
      (Some Guard.role_admin) "/admin/dashboard"
    = Guard.children.
Proof.
  split; [|split].
  - exact (proj1 (ProtectedRoute_decision None (Some Guard.role_admin)
                    "/admin/dashboard")).
  - refine (proj1 (proj2 (ProtectedRoute_decision (Some Scenario.plain_user)
                            (Some Guard.role_admin) "/admin/dashboard"))
              Scenario.plain_user Guard.role_admin eq_refl eq_refl _).
    vm_compute. discriminate.
  - refine (proj2 (proj2 (ProtectedRoute_decision (Some Scenario.admin_user)
                            (Some Guard.role_admin) "/admin/dashboard"))
              Scenario.admin_user eq_refl _).
    right. exists Guard.role_admin. split; [reflexivity | by vm_compute].
Defined.

(** ** Reconciliation and failures *)

(** C3. [checkAuth] never throws and always leaves a definite triple: the
    signed-in triple of the session the provider reports as valid, and the
    signed-out triple whenever it reports none (no session, a rejected
    token, a failed or rejected request). Supabase store first, API store
    second. *)
Theorem checkAuth_definite :
  (∀ (supabase : supabase_js.AuthClient) (s : IAuthStore),
     ∃ s', SupabaseStore.checkAuth supabase s = (Normal (), s')
           ∧ (s' = signed_out ∨ ∃ u t, s' = signed_in u t)
           ∧ (∀ ss, supabase_valid_session supabase ss →
                    s' = signed_in (SupabaseStore.toIUser (supabase_js.user ss))
                                   (supabase_js.access_token ss))
           ∧ ((∀ ss, ¬ supabase_valid_session supabase ss) →
              s' = signed_out))
  ∧ (∀ (b : api.Backend) (w : Browser),
       ∃ w', ApiStore.checkAuth b w = (Normal (), w')
             ∧ (store w' = signed_out ∨ ∃ u t, store w' = signed_in u t)
             ∧ (∀ u t, api_valid_session b w u t → store w' = signed_in u t)
             ∧ ((∀ u t, ¬ api_valid_session b w u t) →
                store w' = signed_out)).
Proof.
  split.
  - intros supabase s.
    destruct (SupabaseFacts.checkAuth_cases supabase s)
      as [Hrun | (u & t & Hrun)].
    + exists signed_out. split; [done|]. split; [by left|]. split; [|done].
      intros ss Hv. rewrite (SupabaseFacts.checkAuth_valid _ _ _ Hv) in Hrun.
      congruence.
    + exists (signed_in u t). split; [done|]. split; [eauto|]. split.
      * intros ss Hv.
        rewrite (SupabaseFacts.checkAuth_valid _ _ _ Hv) in Hrun. congruence.
      * intros Hno.
        rewrite (SupabaseFacts.checkAuth_invalid _ _ Hno) in Hrun. congruence.
  - intros b w.
    destruct (ApiFacts.api_checkAuth_cases b w)
      as [Ht | [(u & t & Hv) | [Hno Ht]]].
    + eexists. split; [exact (ApiFacts.api_checkAuth_no_token _ _ Ht)|].
      split; [by left|]. split; [|done].
      intros u t (Hls & Htruthy & _). rewrite Hls in Ht. congruence.
    + eexists. split; [exact (ApiFacts.api_checkAuth_valid _ _ _ _ Hv)|].
      split; [right; by exists u, t|]. split.
      * intros u' t' Hv'.
        pose proof (ApiFacts.api_checkAuth_valid _ _ _ _ Hv) as H1.
        rewrite (ApiFacts.api_checkAuth_valid _ _ _ _ Hv') in H1.
        apply (f_equal (λ p, store p.2)) in H1. by symmetry.
      * intros Hno. destruct (Hno u t Hv).
    + destruct (ApiFacts.api_checkAuth_invalid b w Ht Hno) as (w' & Hrun & Hst & _).
      exists w'. split; [done|]. split; [by left|]. split; [|done].
      intros u t Hv. destruct (Hno u t Hv).
Qed.

(** A valid session, and an unreachable provider, at both stores. *)
Lemma checkAuth_definite_witness :
  SupabaseStore.checkAuth (Scenario.provider Scenario.user_1) signed_out
  = (Normal (), signed_in Scenario.plain_user "T1")
  ∧ SupabaseStore.checkAuth Scenario.refusing_provider
      (signed_in Scenario.plain_user "T1")
    = (Normal (), signed_out).
Proof.
  split.
  - destruct (proj1 checkAuth_definite (Scenario.provider Scenario.user_1)
                signed_out) as (s' & Hrun & _ & Hvalid & _).
    rewrite Hrun. f_equal.
    apply (Hvalid (Scenario.session_of Scenario.user_1)).
    eexists. split; reflexivity.
  - destruct (proj1 checkAuth_definite Scenario.refusing_provider
                (signed_in Scenario.plain_user "T1"))
      as (s' & Hrun & _ & _ & Hnone).
    rewrite Hrun. f_equal. apply Hnone.
    intros ss (r & Hr & _). discriminate Hr.
Defined.

(** C4. A [login] the provider refuses rejects with an error whose message
    contains the provider's, and leaves the store's triple as it was. *)
Theorem login_failure_keeps_session :
  (∀ (supabase : supabase_js.AuthClient) (credentials : ILoginCredentials)
     (e : JsError) (s : IAuthStore),
     supabase_failed
       (supabase_js.signInWithPassword supabase
          (SupabaseStore.signIn_request credentials)) e →
     ∃ msg, SupabaseStore.login supabase credentials s
            = (Throw (new_Error msg), s)
            ∧ contains msg (message e))
  ∧ (∀ (b : api.Backend) (credentials : ILoginCredentials) (w : Browser),
       api_failed (api.post_auth_login b (api.authorization w) credentials) →
       ∃ msg w', ApiStore.login b credentials w = (Throw (new_Error msg), w')
                 ∧ store w' = store w
                 ∧ ∀ m, api_provider_message
                          (api.post_auth_login b (api.authorization w)
                             credentials) = Some m →
                        contains msg m).
Proof.
  split.
  - intros supabase credentials e s [H | (r & H & He)]; eexists;
      (split; [|apply or_str_contains]).
    + by apply SupabaseFacts.login_rejected.
    + by eapply SupabaseFacts.login_error.
  - intros b credentials w Hfail.
    destruct (ApiFacts.api_login_failed b credentials w Hfail)
      as (e & w' & Hrun & Hst & Hmsg).
    eauto.
Qed.

(** The provider answers "Invalid credentials" to a signed-in store. *)
Example login_invalid_credentials :
  SupabaseStore.login Scenario.refusing_provider Scenario.credentials
    (signed_in Scenario.admin_user "T0")
  = (Throw (new_Error "Invalid credentials"),
     signed_in Scenario.admin_user "T0").
Proof. reflexivity. Qed.

(** In the API store a 401 leaves the triple alone too; what the axios
    interceptor drops is the separate token entry of [localStorage]. *)
Example login_unauthorized :
  let w := with_storage {[ LOCAL_STORAGE_KEYS.AUTH_TOKEN := "T0" ]}
             (with_store (signed_in Scenario.admin_user "T0")
                         Scenario.browser) in
  let w' := (ApiStore.login Scenario.refusing_backend Scenario.credentials
               w).2 in
  (ApiStore.login Scenario.refusing_backend Scenario.credentials w).1
  = Throw (new_Error "Invalid credentials")
  ∧ store w' = store w
  ∧ localStorage w' !! LOCAL_STORAGE_KEYS.AUTH_TOKEN = None
  ∧ location_href w' = "/auth/login".
Proof. by vm_compute. Qed.

Lemma login_failure_keeps_session_witness :
  ∃ msg,
    SupabaseStore.login Scenario.refusing_provider Scenario.credentials
      (signed_in Scenario.admin_user "T0")
    = (Throw (new_Error msg), signed_in Scenario.admin_user "T0")
    ∧ contains msg "Invalid credentials".
Proof.
  apply (proj1 login_failure_keeps_session Scenario.refusing_provider
           Scenario.credentials (new_Error "Invalid credentials")).
  right. eexists. split; reflexivity.
Defined.

(** C5. [logout] always completes normally with the signed-out triple,
    whatever becomes of the provider's sign-out request. *)
Theorem logout_clears_session :
  (∀ (supabase : supabase_js.AuthClient) (s : IAuthStore),
     SupabaseStore.logout supabase s = (Normal (), signed_out))
  ∧ (∀ (b : api.Backend) (w : Browser),
       ∃ w', ApiStore.logout b w = (Normal (), w') ∧ store w' = signed_out).
Proof.
  split; [apply SupabaseFacts.logout_run|].
  intros b w. destruct (ApiFacts.api_logout_run b w) as (w' & ? & ? & _). eauto.
Qed.

(** ** Signing in and registering *)

Lemma toIUser_defaults (u : supabase_js.User) :
  (SupabaseStore.metadata u "role" = None →
   user_role (SupabaseStore.toIUser u) = "user")
  ∧ (SupabaseStore.metadata u "name" = None →
     user_name (SupabaseStore.toIUser u) = supabase_js.email u)
  ∧ (∀ ρ, SupabaseStore.metadata u "role" = Some ρ → ρ ≠ "" →
          user_role (SupabaseStore.toIUser u) = ρ)
  ∧ (∀ n, SupabaseStore.metadata u "name" = Some n → n ≠ "" →
          user_name (SupabaseStore.toIUser u) = n).
Proof.
  unfold SupabaseStore.toIUser. simpl.
  repeat split.
  - by intros ->.
  - by intros ->.
  - intros ρ -> ?. by apply or_str_nonempty.
  - intros n -> ?. by apply or_str_nonempty.
Qed.

Lemma toIUser_supplied (u : supabase_js.User) (k v : string) :
  provider_supplies u k v → SupabaseStore.metadata u k = Some v.
Proof.
  intros (m & Hm & Hk & _). unfold SupabaseStore.metadata. by rewrite Hm.
Qed.

Lemma toIUser_not_supplied (u : supabase_js.User) (k d : string) :
  (∀ v, ¬ provider_supplies u k v) →
  or_undef (SupabaseStore.metadata u k) d = d.
Proof.
  intros Hno. unfold SupabaseStore.metadata.
  destruct (supabase_js.user_metadata u) as [m|] eqn:Hm; [|done]. simpl.
  destruct (m !! k) as [[|c v]|] eqn:Hk; [done| |done].
  destruct (Hno (String c v)). by exists m.
Qed.

(** C6, as the code has it. A [login] the provider grants stores the
    signed-in triple with the issued token. In the Supabase store the user
    record is built from the provider's user: [id], [email] and the two
    timestamps are copied, the department is the metadata's, the role is
    the one the metadata supplies and "user" when it supplies none, the
    name is the one the metadata supplies and the email when it supplies
    none. In the API store the record of the back end's answer is stored as
    it was sent, and nothing is defaulted. *)
Theorem login_success_normalizes :
  (∀ (supabase : supabase_js.AuthClient) (credentials : ILoginCredentials)
     (r : supabase_js.AuthResponse) (u : supabase_js.User)
     (ss : supabase_js.Session) (s : IAuthStore),
     supabase_answered
       (supabase_js.signInWithPassword supabase
          (SupabaseStore.signIn_request credentials)) r →
     supabase_js.data_user r = Some u →
     supabase_js.data_session r = Some ss →
     ∃ u', SupabaseStore.login supabase credentials s
           = (Normal (), signed_in u' (supabase_js.access_token ss))
           ∧ user_id u' = supabase_js.id u
           ∧ user_email u' = supabase_js.email u
           ∧ user_createdAt u' = supabase_js.created_at u
           ∧ user_updatedAt u' = supabase_js.updated_at u
           ∧ (supabase_js.user_metadata u = None → user_department u' = None)
           ∧ (∀ m : gmap string string,
                supabase_js.user_metadata u = Some m →
                user_department u' = m !! "department")
           ∧ (∀ ρ, provider_supplies u "role" ρ → user_role u' = ρ)
           ∧ ((∀ ρ, ¬ provider_supplies u "role" ρ) → user_role u' = "user")
           ∧ (∀ n, provider_supplies u "name" n → user_name u' = n)
           ∧ ((∀ n, ¬ provider_supplies u "name" n) →
              user_name u' = supabase_js.email u))
  ∧ (∀ (b : api.Backend) (credentials : ILoginCredentials) (w : Browser)
       (u : IUser) (t : string),
       api_answered
         (api.post_auth_login b (api.authorization w) credentials) u t →
       ∃ w', ApiStore.login b credentials w = (Normal (), w')
             ∧ store w' = signed_in u t).
Proof.
  split.
  - intros supabase credentials r u ss s [H He] Hu Hs.
    exists (SupabaseStore.toIUser u).
    split; [by eapply SupabaseFacts.login_signed_in|].
    unfold SupabaseStore.toIUser. simpl.
    split; [done|]. split; [done|]. split; [done|]. split; [done|].
    split; [|split; [|split; [|split; [|split]]]].
    + unfold SupabaseStore.metadata. by intros ->.
    + unfold SupabaseStore.metadata. by intros m ->.
    + intros ρ Hρ. rewrite (toIUser_supplied u "role" ρ Hρ).
      destruct Hρ as (_ & _ & _ & Hne). by apply or_str_nonempty.
    + apply toIUser_not_supplied.
    + intros n Hn. rewrite (toIUser_supplied u "name" n Hn).
      destruct Hn as (_ & _ & _ & Hne). by apply or_str_nonempty.
    + apply toIUser_not_supplied.
  - intros b credentials w u t (r & H & Hs & Hd).
    eexists. split; [by eapply ApiFacts.api_login_signed_in|done].
Qed.

(** The test of the spec: the provider grants user "1" with no metadata and
    the token "T1". *)
Example login_granted :
  SupabaseStore.login (Scenario.provider Scenario.user_1)
    Scenario.credentials signed_out
  = (Normal (),
     signed_in {| user_id := "1"; user_email := "a@x.com";
                  user_name := "a@x.com"; user_role := "user";
                  user_department := None;
                  user_createdAt := "2024-01-01";
                  user_updatedAt := "2024-01-02" |} "T1").
Proof. reflexivity. Qed.

Lemma login_success_normalizes_witness :
  ∃ u', SupabaseStore.login (Scenario.provider Scenario.user_1)
          Scenario.credentials signed_out
        = (Normal (), signed_in u' "T1")
        ∧ user_role u' = "user" ∧ user_name u' = "a@x.com".
Proof.
  destruct (proj1 login_success_normalizes (Scenario.provider Scenario.user_1)
              Scenario.credentials (Scenario.granted Scenario.user_1)
              Scenario.user_1 (Scenario.session_of Scenario.user_1) signed_out)
    as (u' & Hrun & _ & _ & _ & _ & _ & _ & _ & Hrole & _ & Hname);
    [by split | reflexivity | reflexivity |].
  exists u'. split; [exact Hrun|]. split.
  - apply Hrole. intros ρ (m & Hm & _). discriminate Hm.
  - apply Hname. intros n (m & Hm & _). discriminate Hm.
Defined.

(** C6, as the claim has it, fails in the API store: the back end grants a
    login with a record whose name and role are empty, and the record is
    stored with them, not with the email and "user". *)
Lemma login_api_stores_provider_record :
  ∃ w' u,
    ApiStore.login Scenario.bare_backend Scenario.credentials Scenario.browser
    = (Normal (), w')
    ∧ store w' = signed_in u "T1"
    ∧ user_name u = ""
    ∧ user_name u ≠ user_email u
    ∧ user_role u = ""
    ∧ user_role u ≠ "user".
Proof.
  eexists _, Scenario.bare_user. split; [reflexivity|].
  repeat split; try by vm_compute.
Qed.

(** The Supabase store, given the same empty name and role in the
    metadata, stores the email and "user". *)
Example login_supabase_defaults :
  ∃ u, SupabaseStore.login (Scenario.provider Scenario.user_3)
         Scenario.credentials signed_out
       = (Normal (), signed_in u "T1")
       ∧ user_name u = "a@x.com" ∧ user_role u = "user".
Proof. eexists. by vm_compute. Qed.

(** C7, as the code has it. A [register] the provider grants stores the
    signed-in triple with the issued token. In the Supabase store the user
    record has the role "user" whatever the provider's user says, the name
    and department submitted, and the provider's [id], [email] and
    timestamps. In the API store the record is the one the back end sent,
    role, name and department included. *)
Theorem register_success_record :
  (∀ (origin : string) (supabase : supabase_js.AuthClient)
     (userData : IRegisterData) (r : supabase_js.AuthResponse)
     (u : supabase_js.User) (ss : supabase_js.Session) (s : IAuthStore),
     supabase_answered
       (supabase_js.signUp supabase
          (SupabaseStore.signUp_request origin userData)) r →
     supabase_js.data_user r = Some u →
     supabase_js.data_session r = Some ss →
     ∃ u', SupabaseStore.register origin supabase userData s
           = (Normal (), signed_in u' (supabase_js.access_token ss))
           ∧ user_role u' = "user"
           ∧ user_name u' = reg_name userData
           ∧ user_department u' = reg_department userData
           ∧ user_id u' = supabase_js.id u
           ∧ user_email u' = supabase_js.email u
           ∧ user_createdAt u' = supabase_js.created_at u
           ∧ user_updatedAt u' = supabase_js.updated_at u)
  ∧ (∀ (b : api.Backend) (userData : IRegisterData) (w : Browser)
       (u : IUser) (t : string),
       api_answered
         (api.post_auth_register b (api.authorization w) userData) u t →
       ∃ w', ApiStore.register b userData w = (Normal (), w')
             ∧ store w' = signed_in u t).
Proof.
  split.
  - intros origin supabase userData r u ss s [H He] Hu Hs.
    exists (registered userData u).
    split; [by eapply SupabaseFacts.register_signed_in|done].
  - intros b userData w u t (r & H & Hs & Hd).
    eexists. split; [by eapply ApiFacts.api_register_signed_in|done].
Qed.

Lemma register_success_record_witness :
  ∃ u', SupabaseStore.register "https://help.example"
          (Scenario.provider Scenario.user_2) Scenario.userData signed_out
        = (Normal (), signed_in u' "T1")
        ∧ user_role u' = "user"
        ∧ user_name u' = "Asha"
        ∧ user_department u' = Some "Grid".
Proof.
  destruct (proj1 register_success_record "https://help.example"
              (Scenario.provider Scenario.user_2) Scenario.userData
              (Scenario.granted Scenario.user_2) Scenario.user_2
              (Scenario.session_of Scenario.user_2) signed_out)
    as (u' & Hrun & Hrole & Hname & Hdep & _);
    [by split | reflexivity | reflexivity |].
  exists u'. by repeat split.
Defined.

(** C7, as the claim has it, fails in the API store: the back end answers a
    registration with an administrator's record, and that record is stored,
    with its role and its name rather than "user" and the submitted name. *)
Lemma register_api_stores_provider_record :
  ∃ w' u,
    ApiStore.register Scenario.backend Scenario.userData Scenario.browser
    = (Normal (), w')
    ∧ types.user (store w') = Some u
    ∧ user_role u = "admin"
    ∧ user_role u ≠ "user"
    ∧ user_name u = "Root"
    ∧ user_name u ≠ reg_name Scenario.userData
    ∧ user_department u ≠ reg_department Scenario.userData.
Proof.
  eexists _, Scenario.admin_user. split; [reflexivity|].
  repeat split; try by vm_compute.
Qed.

(** ** The facade *)

Lemma drain_invoke_idle {T} (c : Call T) (s : T) :
  drain (invoke c (idle s)) = (whole c s).2.
Proof. done. Qed.

(** The split of the API store's methods at their first [await] is the
    methods themselves. *)
Lemma api_logout_whole (b : api.Backend) (w : Browser) :
  whole (ApiCalls.logout b) w = ApiStore.logout b w.
Proof. done. Qed.

Lemma api_checkAuth_whole (b : api.Backend) (w : Browser) :
  whole (ApiCalls.checkAuth b) w = ApiStore.checkAuth b w.
Proof.
  unfold whole, ApiCalls.checkAuth, ApiStore.checkAuth.
  erewrite bind_run; [|reflexivity].
  by destruct (negb _).
Qed.

Lemma counted_logout_drain {T} (authStore : Facade.AuthStore T)
    (s : T) (n : Facade.Calls) :
  let l := invoke (Facade.logout (Facade.counted authStore)) (idle (s, n)) in
  (world l).2 = {| Facade.logouts := Facade.logouts n + 1;
                   Facade.checkAuths := Facade.checkAuths n |}
  ∧ drain l = ((whole (Facade.logout authStore) s).2,
               {| Facade.logouts := Facade.logouts n + 1;
                  Facade.checkAuths := Facade.checkAuths n |}).
Proof. done. Qed.

Lemma counted_checkAuth_drain {T} (authStore : Facade.AuthStore T)
    (s : T) (n : Facade.Calls) :
  let l := invoke (Facade.checkAuth (Facade.counted authStore))
                  (idle (s, n)) in
  (world l).2 = {| Facade.logouts := Facade.logouts n;
                   Facade.checkAuths := Facade.checkAuths n + 1 |}
  ∧ drain l = ((whole (Facade.checkAuth authStore) s).2,
               {| Facade.logouts := Facade.logouts n;
                  Facade.checkAuths := Facade.checkAuths n + 1 |}).
Proof. done. Qed.

Lemma callback_signed_out {T} (authStore : Facade.AuthStore T)
    (session : option supabase_js.Session) (l : Loop T) :
  Facade.onAuthStateChange_callback authStore "SIGNED_OUT" session l
  = invoke (Facade.logout authStore) l.
Proof. done. Qed.

Lemma callback_live_session {T} (authStore : Facade.AuthStore T)
    (event : string) (ss : supabase_js.Session) (l : Loop T) :
  event ≠ "SIGNED_OUT" →
  Facade.onAuthStateChange_callback authStore event (Some ss) l
  = invoke (Facade.checkAuth authStore) l.
Proof.
  intros Hne. unfold Facade.onAuthStateChange_callback.
  by rewrite bool_decide_eq_false_2.
Qed.

Lemma callback_no_session {T} (authStore : Facade.AuthStore T)
    (event : string) (l : Loop T) :
  event ≠ "SIGNED_OUT" →
  Facade.onAuthStateChange_callback authStore event None l = l.
Proof.
  intros Hne. unfold Facade.onAuthStateChange_callback.
  by rewrite bool_decide_eq_false_2.
Qed.

(** Once the cleanup has run, a notification calls nothing. *)
Lemma unsubscribed_hook_is_deaf {T} (authStore : Facade.AuthStore T)
    (event : string) (session : option supabase_js.Session)
    (h : Facade.Hook T) :
  Facade.notify authStore event session (Facade.useAuth_cleanup h)
  = Facade.useAuth_cleanup h.
Proof. done. Qed.

(** C8. The callback [useAuth] registers with the provider calls the
    store's [logout], and nothing else, on a "SIGNED_OUT" notification, and
    the store's [checkAuth], and nothing else, on any other notification
    that carries a session: for any store, and, over the Supabase store
    with its calls counted, one more [logout] (respectively [checkAuth])
    and no other call, the store ending as that method leaves it once the
    call has settled. The mount effect of the hook calls [checkAuth]
    exactly once and [logout] never, in the version that subscribes
    (Supabase store) and in the version that does not (API store). *)
Theorem useAuth_notifications :
  (∀ (T : Type) (authStore : Facade.AuthStore T)
     (session : option supabase_js.Session) (l : Loop T),
     Facade.onAuthStateChange_callback authStore "SIGNED_OUT" session l
     = invoke (Facade.logout authStore) l)
  ∧ (∀ (T : Type) (authStore : Facade.AuthStore T) (event : string)
       (ss : supabase_js.Session) (l : Loop T),
       event ≠ "SIGNED_OUT" →
       Facade.onAuthStateChange_callback authStore event (Some ss) l
       = invoke (Facade.checkAuth authStore) l)
  ∧ (∀ (supabase : supabase_js.AuthClient)
       (session : option supabase_js.Session) (s : IAuthStore)
       (n : Facade.Calls),
       let l := Facade.onAuthStateChange_callback
                  (Facade.counted (Facade.supabase_store supabase))
                  "SIGNED_OUT" session (idle (s, n)) in
       (world l).2 = {| Facade.logouts := Facade.logouts n + 1;
                        Facade.checkAuths := Facade.checkAuths n |}
       ∧ drain l = ((SupabaseStore.logout supabase s).2,
                    {| Facade.logouts := Facade.logouts n + 1;
                       Facade.checkAuths := Facade.checkAuths n |})
       ∧ (drain l).1 = signed_out)
  ∧ (∀ (supabase : supabase_js.AuthClient) (event : string)
       (ss : supabase_js.Session) (s : IAuthStore) (n : Facade.Calls),
       event ≠ "SIGNED_OUT" →
       let l := Facade.onAuthStateChange_callback
                  (Facade.counted (Facade.supabase_store supabase))
                  event (Some ss) (idle (s, n)) in
       (world l).2 = {| Facade.logouts := Facade.logouts n;
                        Facade.checkAuths := Facade.checkAuths n + 1 |}
       ∧ drain l = ((SupabaseStore.checkAuth supabase s).2,
                    {| Facade.logouts := Facade.logouts n;
                       Facade.checkAuths := Facade.checkAuths n + 1 |}))
  ∧ (∀ (supabase : supabase_js.AuthClient) (s : IAuthStore)
       (n : Facade.Calls),
       let h := Facade.useAuth_effect
                  (Facade.counted (Facade.supabase_store supabase))
                  {| Facade.loop := idle (s, n);
                     Facade.subscribed := false |} in
       Facade.subscribed h = true
       ∧ (world (Facade.loop h)).2
         = {| Facade.logouts := Facade.logouts n;
              Facade.checkAuths := Facade.checkAuths n + 1 |}
       ∧ drain (Facade.loop h)
         = ((SupabaseStore.checkAuth supabase s).2,
            {| Facade.logouts := Facade.logouts n;
               Facade.checkAuths := Facade.checkAuths n + 1 |}))
  ∧ (∀ (b : api.Backend) (w : Browser) (n : Facade.Calls),
       let l := Facade.useAuth_effect_api
                  (Facade.counted (Facade.api_store b)) (idle (w, n)) in
       (world l).2 = {| Facade.logouts := Facade.logouts n;
                        Facade.checkAuths := Facade.checkAuths n + 1 |}
       ∧ drain l = ((ApiStore.checkAuth b w).2,
                    {| Facade.logouts := Facade.logouts n;
                       Facade.checkAuths := Facade.checkAuths n + 1 |})).
Proof.
  split; [intros; apply callback_signed_out|].
  split; [intros; by apply callback_live_session|].
  split; [|split; [|split]].
  - intros supabase session s n l. subst l.
    rewrite callback_signed_out.
    destruct (counted_logout_drain (Facade.supabase_store supabase) s n)
      as [Hcount Hdrain].
    split; [exact Hcount|]. split; [exact Hdrain|].
    rewrite Hdrain. simpl. unfold whole. simpl.
    by rewrite SupabaseFacts.logout_run.
  - intros supabase event ss s n Hne l. subst l.
    rewrite callback_live_session by done.
    apply (counted_checkAuth_drain (Facade.supabase_store supabase) s n).
  - intros supabase s n h. subst h. split; [done|].
    apply (counted_checkAuth_drain (Facade.supabase_store supabase) s n).
  - intros b w n l. subst l. unfold Facade.useAuth_effect_api.
    destruct (counted_checkAuth_drain (Facade.api_store b) w n)
      as [Hcount Hdrain].
    split; [exact Hcount|]. rewrite Hdrain. simpl.
    by rewrite api_checkAuth_whole.
Qed.

(** A token refresh the provider announces on a signed-out store: one
    [checkAuth], no [logout], and the user is signed in once it settles. *)
Lemma useAuth_notifications_witness :
  let l := Facade.onAuthStateChange_callback
             (Facade.counted
                (Facade.supabase_store (Scenario.provider Scenario.user_1)))
             "TOKEN_REFRESHED" (Some (Scenario.session_of Scenario.user_1))
             (idle (signed_out,
                    {| Facade.logouts := 0; Facade.checkAuths := 0 |})) in
  (world l).2 = {| Facade.logouts := 0; Facade.checkAuths := 0 + 1 |}
  ∧ drain l
    = ((SupabaseStore.checkAuth (Scenario.provider Scenario.user_1)
          signed_out).2,
       {| Facade.logouts := 0; Facade.checkAuths := 0 + 1 |}).
Proof.
  apply (proj1 (proj2 (proj2 (proj2 useAuth_notifications)))
           (Scenario.provider Scenario.user_1) "TOKEN_REFRESHED"
           (Scenario.session_of Scenario.user_1) signed_out
           {| Facade.logouts := 0; Facade.checkAuths := 0 |}).
  discriminate.
Defined.

(** A provider that signs the user out elsewhere: the notification signs
    the store out, by one call of [logout]. *)
Example notification_signs_out :
  drain (Facade.onAuthStateChange_callback
           (Facade.counted
              (Facade.supabase_store Scenario.refusing_provider))
           "SIGNED_OUT" None
           (idle (signed_in Scenario.plain_user "T1",
                  {| Facade.logouts := 0; Facade.checkAuths := 0 |})))
  = (signed_out, {| Facade.logouts := 1; Facade.checkAuths := 0 |}).
Proof. reflexivity. Qed.

(** The subscription outlives the mount: a notification with a session that
    reaches the callback after the mount effect is a second call of
    [checkAuth], made by the callback. *)
Lemma mount_then_notification (supabase : supabase_js.AuthClient)
    (event : string) (ss : supabase_js.Session) (s : IAuthStore)
    (n : Facade.Calls) :
  event ≠ "SIGNED_OUT" →
  let authStore := Facade.counted (Facade.supabase_store supabase) in
  let h := Facade.notify authStore event (Some ss)
             (Facade.useAuth_effect authStore
                {| Facade.loop := idle (s, n);
                   Facade.subscribed := false |}) in
  (world (Facade.loop h)).2
  = {| Facade.logouts := Facade.logouts n;
       Facade.checkAuths := Facade.checkAuths n + 2 |}
  ∧ length (pending (Facade.loop h)) = 2.
Proof.
  intros Hne authStore h. subst h authStore.
  unfold Facade.notify, Facade.useAuth_effect. simpl.
  rewrite callback_live_session by done. simpl.
  split; [|done]. f_equal. lia.
Qed.

(** ** Idempotence of the session check *)

Lemma api_checkAuth_twice (b : api.Backend) (w : Browser) :
  ApiStore.checkAuth b (ApiStore.checkAuth b w).2
  = (Normal (), (ApiStore.checkAuth b w).2).
Proof.
  destruct (ApiFacts.api_checkAuth_cases b w) as [Ht | [(u & t & Hv) | [Hno Ht]]].
  - rewrite (ApiFacts.api_checkAuth_no_token b w Ht). simpl.
    by rewrite (ApiFacts.api_checkAuth_no_token b (with_store signed_out w)).
  - rewrite (ApiFacts.api_checkAuth_valid b w u t Hv). simpl.
    by apply (ApiFacts.api_checkAuth_valid b (with_store (signed_in u t) w) u t).
  - destruct (ApiFacts.api_checkAuth_invalid b w Ht Hno) as (w' & -> & Hst & Hls).
    simpl. rewrite ApiFacts.api_checkAuth_no_token by by rewrite Hls.
    f_equal. destruct w'; simpl in *. by subst.
Qed.

(** C9. Running [checkAuth] a second time, against the same provider and
    the storage the first run left, leaves the store as the first run left
    it (in the API store the whole browser state). *)
Theorem checkAuth_idempotent :
  (∀ (supabase : supabase_js.AuthClient) (s : IAuthStore),
     (SupabaseStore.checkAuth supabase
        (SupabaseStore.checkAuth supabase s).2).2
     = (SupabaseStore.checkAuth supabase s).2)
  ∧ (∀ (b : api.Backend) (w : Browser),
       (ApiStore.checkAuth b (ApiStore.checkAuth b w).2).2
       = (ApiStore.checkAuth b w).2
       ∧ store (ApiStore.checkAuth b (ApiStore.checkAuth b w).2).2
         = store (ApiStore.checkAuth b w).2).
Proof.
  split.
  - intros supabase s. f_equal. apply SupabaseFacts.checkAuth_const.
  - intros b w. by rewrite api_checkAuth_twice.
Qed.

(** ** Answers without a session *)

(** C10. In the Supabase store, when sign-in or sign-up answers without an
    error and without a user or without a session, [login] and [register]
    complete normally and leave the store exactly as it was. *)
Theorem login_without_session_resolves :
  (∀ (supabase : supabase_js.AuthClient) (credentials : ILoginCredentials)
     (r : supabase_js.AuthResponse) (s : IAuthStore),
     supabase_answered
       (supabase_js.signInWithPassword supabase
          (SupabaseStore.signIn_request credentials)) r →
     supabase_js.data_user r = None ∨ supabase_js.data_session r = None →
     SupabaseStore.login supabase credentials s = (Normal (), s))
  ∧ (∀ (origin : string) (supabase : supabase_js.AuthClient)
       (userData : IRegisterData) (r : supabase_js.AuthResponse)
       (s : IAuthStore),
       supabase_answered
         (supabase_js.signUp supabase
            (SupabaseStore.signUp_request origin userData)) r →
       supabase_js.data_user r = None ∨ supabase_js.data_session r = None →
       SupabaseStore.register origin supabase userData s = (Normal (), s)).
Proof.
  split.
  - intros supabase credentials r s [H He] Hmiss.
    by eapply SupabaseFacts.login_incomplete.
  - intros origin supabase userData r s [H He] Hmiss.
    by eapply SupabaseFacts.register_incomplete.
Qed.

(** A registration awaiting confirmation of the address, and a sign-in
    answered the same way: both complete normally, and the caller is still
    signed out. *)
Lemma login_without_session_resolves_witness :
  SupabaseStore.register "https://help.example" Scenario.confirming_provider
    Scenario.userData signed_out
  = (Normal (), signed_out)
  ∧ SupabaseStore.login Scenario.confirming_provider Scenario.credentials
      signed_out
    = (Normal (), signed_out)
  ∧ isAuthenticated signed_out = false.
Proof.
  split; [|split; [|reflexivity]].
  - apply (proj2 login_without_session_resolves "https://help.example"
             Scenario.confirming_provider Scenario.userData
             (Scenario.pending Scenario.user_1) signed_out);
      [by split | by right].
  - apply (proj1 login_without_session_resolves Scenario.confirming_provider
             Scenario.credentials (Scenario.pending Scenario.user_1)
             signed_out);
      [by split | by right].
Defined.

(** * Beyond the claims *)

(** ** The axios instance *)

Lemma bearer_None_of_no_token (w : Browser) :
  localStorage w !! LOCAL_STORAGE_KEYS.AUTH_TOKEN = None →
  api.authorization w = None.
Proof. unfold api.authorization. by intros ->. Qed.

(** X1. A request rejected with status 401 drops the stored token and
    sends the browser to the login page, without touching the auth store;
    the next request then carries no [Authorization] header and the next
    session check signs out, whatever back end it is run against. *)
Theorem unauthorized_request_signs_out {A}
    (send : option string → settled A) (w : Browser) (e : JsError) :
  send (api.authorization w) = Rejected e →
  status <$> response e = Some 401%Z →
  ∃ w', api.request send w = (Throw e, w')
        ∧ store w' = store w
        ∧ localStorage w'
          = delete LOCAL_STORAGE_KEYS.AUTH_TOKEN (localStorage w)
        ∧ location_href w' = "/auth/login"
        ∧ api.authorization w' = None
        ∧ ∀ b, ApiStore.checkAuth b w' = (Normal (), with_store signed_out w').
Proof.
  intros Hsend H401. eexists. split.
  - ApiFacts.run_api. rewrite Hsend. cbv beta iota.
    rewrite bool_decide_eq_true_2 by done. reflexivity.
  - simpl. split; [done|]. split; [done|]. split; [done|].
    assert (Hnone : delete LOCAL_STORAGE_KEYS.AUTH_TOKEN (localStorage w)
                    !! LOCAL_STORAGE_KEYS.AUTH_TOKEN = None)
      by apply lookup_delete_eq.
    split; [by apply bearer_None_of_no_token|].
    intros b. rewrite ApiFacts.api_checkAuth_no_token; [done|].
    simpl. by rewrite Hnone.
Qed.

Lemma unauthorized_request_signs_out_witness :
  let w := with_storage {[ LOCAL_STORAGE_KEYS.AUTH_TOKEN := "T0" ]}
             (with_store (signed_in Scenario.admin_user "T0")
                         Scenario.browser) in
  ∃ w', api.request (api.get_auth_verify Scenario.refusing_backend) w
        = (Throw Scenario.unauthorized, w')
        ∧ store w' = store w
        ∧ localStorage w'
          = delete LOCAL_STORAGE_KEYS.AUTH_TOKEN (localStorage w)
        ∧ location_href w' = "/auth/login"
        ∧ api.authorization w' = None
        ∧ ∀ b, ApiStore.checkAuth b w' = (Normal (), with_store signed_out w').
Proof.
  apply (unauthorized_request_signs_out
           (api.get_auth_verify Scenario.refusing_backend)); reflexivity.
Defined.

(** X2. A request that is answered, or rejected with anything but a 401,
    leaves the browser exactly as it was: store, storage and location. *)
Theorem request_leaves_browser {A}
    (send : option string → settled A) (w : Browser) :
  match send (api.authorization w) with
  | Fulfilled a => True
  | Rejected e => status <$> response e ≠ Some 401%Z
  end →
  (api.request send w).2 = w
  ∧ (api.request send w).1
    = match send (api.authorization w) with
      | Fulfilled a => Normal a
      | Rejected e => Throw e
      end.
Proof.
  intros H. ApiFacts.run_api.
  destruct (send _) as [a|e]; [done|]. cbv beta iota.
  by rewrite bool_decide_eq_false_2.
Qed.

Lemma request_leaves_browser_witness :
  (api.request (api.post_auth_logout Scenario.backend) Scenario.browser).2
  = Scenario.browser
  ∧ (api.request (api.post_auth_logout Scenario.backend) Scenario.browser).1
    = Throw (new_Error "Network Error").
Proof.
  apply (request_leaves_browser (api.post_auth_logout Scenario.backend)
           Scenario.browser).
  simpl. discriminate.
Defined.

(** ** How the methods of the stores compose *)

Lemma authorization_of_token (w : Browser) (t : string) :
  localStorage w !! LOCAL_STORAGE_KEYS.AUTH_TOKEN = Some t → t ≠ "" →
  api.authorization w = Some ("Bearer " +:+ t).
Proof.
  unfold api.authorization. intros -> Ht. by destruct t.
Qed.

(** X3. After a login the back end granted with the token [t], the token
    is what the next request presents: a non-empty [t] goes out as
    "Bearer t", and a session check the back end confirms keeps the user
    signed in with [t]. A login granted with the empty token signs in, but
    the next session check signs out without asking the back end. *)
Theorem api_login_then_checkAuth
    (b : api.Backend) (credentials : ILoginCredentials) (w : Browser)
    (u : IUser) (t : string) :
  api_answered (api.post_auth_login b (api.authorization w) credentials) u t →
  let w1 := (ApiStore.login b credentials w).2 in
  store w1 = signed_in u t
  ∧ localStorage w1 !! LOCAL_STORAGE_KEYS.AUTH_TOKEN = Some t
  ∧ (t ≠ "" →
     api.authorization w1 = Some ("Bearer " +:+ t)
     ∧ ∀ b' r u',
         api.get_auth_verify b' (Some ("Bearer " +:+ t)) = Fulfilled r →
         resp_success r = true → resp_data r = Some u' →
         ApiStore.checkAuth b' w1 = (Normal (), with_store (signed_in u' t) w1))
  ∧ (t = "" →
     ∀ b', ApiStore.checkAuth b' w1 = (Normal (), with_store signed_out w1)).
Proof.
  intros (r & Ho & Hs & Hd) w1. subst w1.
  rewrite (ApiFacts.api_login_signed_in b credentials w r u t Ho Hs Hd).
  simpl.
  assert (Hls : <[LOCAL_STORAGE_KEYS.AUTH_TOKEN := t]> (localStorage w)
                !! LOCAL_STORAGE_KEYS.AUTH_TOKEN = Some t)
    by apply lookup_insert_eq.
  split; [done|]. split; [done|]. split.
  - intros Ht. split; [by apply authorization_of_token|].
    intros b' r' u' Hv Hs' Hd'. apply ApiFacts.api_checkAuth_valid.
    split; [done|]. split; [by destruct t|].
    exists r'. split; [|done].
    by rewrite (authorization_of_token _ t).
  - intros -> b'. apply ApiFacts.api_checkAuth_no_token.
    simpl. by rewrite Hls.
Qed.

Lemma api_login_then_checkAuth_witness :
  let w1 := (ApiStore.login Scenario.backend Scenario.credentials
               Scenario.browser).2 in
  store w1 = signed_in Scenario.admin_user "T1"
  ∧ api.authorization w1 = Some "Bearer T1".
Proof.
  destruct (api_login_then_checkAuth Scenario.backend Scenario.credentials
              Scenario.browser Scenario.admin_user "T1")
    as (Hst & _ & Hne & _).
  - eexists. split; [reflexivity|]. split; reflexivity.
  - split; [exact Hst|]. apply Hne. discriminate.
Defined.

(** X4. What a session check finds after a [logout]. In the API store the
    token is gone, so the check signs out whatever the back end would
    confirm. In the Supabase store the check follows the provider: when it
    still reports a session (the sign-out request failed, say), the user is
    signed in again. *)
Theorem checkAuth_after_logout :
  (∀ (b b' : api.Backend) (w : Browser),
     let w1 := (ApiStore.logout b w).2 in
     ApiStore.checkAuth b' w1 = (Normal (), w1) ∧ store w1 = signed_out)
  ∧ (∀ (supabase : supabase_js.AuthClient) (s : IAuthStore)
       (ss : supabase_js.Session),
       supabase_valid_session supabase ss →
       SupabaseStore.checkAuth supabase (SupabaseStore.logout supabase s).2
       = (Normal (),
          signed_in (SupabaseStore.toIUser (supabase_js.user ss))
                    (supabase_js.access_token ss))).
Proof.
  split.
  - intros b b' w w1. subst w1.
    destruct (ApiFacts.api_logout_run b w) as (w' & -> & Hst & Hls). simpl.
    split; [|done].
    rewrite ApiFacts.api_checkAuth_no_token by by rewrite Hls.
    f_equal. destruct w'; simpl in *. by subst.
  - intros supabase s ss Hv. by apply SupabaseFacts.checkAuth_valid.
Qed.

(** The provider knows the user and its sign-out fails: signed out locally,
    signed in again by the next check. *)
Lemma checkAuth_after_logout_witness :
  (SupabaseStore.logout (Scenario.provider Scenario.user_1)
     (signed_in Scenario.plain_user "T1")).2
  = signed_out
  ∧ SupabaseStore.checkAuth (Scenario.provider Scenario.user_1)
      (SupabaseStore.logout (Scenario.provider Scenario.user_1)
         (signed_in Scenario.plain_user "T1")).2
    = (Normal (), signed_in Scenario.plain_user "T1").
Proof.
  split; [reflexivity|].
  apply (proj2 checkAuth_after_logout (Scenario.provider Scenario.user_1)
           (signed_in Scenario.plain_user "T1")
           (Scenario.session_of Scenario.user_1)).
  eexists. split; reflexivity.
Defined.

(** ** The ticket store *)

Module TicketFacts.
Import ticket TicketStore.

Lemma with_browser_id (a : App) : with_browser (browser a) a = a.
Proof. by destruct a. Qed.

Lemma in_browser_fulfilled {A} (send : option string → settled A) a x :
  send (api.authorization (browser a)) = Fulfilled x →
  in_browser (api.request send) a = (Normal x, a).
Proof.
  intros H. unfold in_browser.
  rewrite (ApiFacts.request_fulfilled send (browser a) x H). simpl.
  by rewrite with_browser_id.
Qed.

Lemma in_browser_rejected {A} (send : option string → settled A) a e :
  send (api.authorization (browser a)) = Rejected e →
  ∃ w', in_browser (api.request send) a = (Throw e, with_browser w' a)
        ∧ store w' = store (browser a).
Proof.
  intros H. unfold in_browser.
  destruct (ApiFacts.request_rejected send (browser a) e H)
    as (w' & -> & Hst & _).
  by exists w'.
Qed.

End TicketFacts.

(** X5. [fetchTickets] never throws and always ends with [loading] false
    and the auth store untouched. When the back end answers with the list,
    the list replaces the tickets and the error is cleared; when the request
    fails, the tickets stay as they were and the error is a message that
    carries the back end's. *)
Theorem fetchTickets_settles (b : ticket.Backend) (a : TicketStore.App) :
  let o := ticket.get_tickets b (api.authorization (TicketStore.browser a)) in
  ∃ a', TicketStore.fetchTickets b a = (Normal (), a')
        ∧ ticket.loading (TicketStore.state a') = false
        ∧ store (TicketStore.browser a') = store (TicketStore.browser a)
        ∧ (∀ data, api_succeeded o data →
             ticket.tickets (TicketStore.state a') = data
             ∧ ticket.error (TicketStore.state a') = None)
        ∧ (api_failed o →
             ticket.tickets (TicketStore.state a')
             = ticket.tickets (TicketStore.state a)
             ∧ ∃ m, ticket.error (TicketStore.state a') = Some m
                    ∧ ∀ pm, api_provider_message o = Some pm →
                            contains m pm).
Proof.
  intros o. unfold TicketStore.fetchTickets.
  erewrite bind_run; [|reflexivity].
  set (a1 := {| TicketStore.browser := TicketStore.browser a;
                TicketStore.state := _ |}).
  destruct o as [r|e] eqn:Ho; subst o.
  - pose proof (TicketFacts.in_browser_fulfilled (ticket.get_tickets b) a1 r Ho)
      as Hreq.
    destruct (resp_success r) eqn:Hs, (resp_data r) as [data|] eqn:Hd.
    + eexists. split.
      { apply try_catch_normal. erewrite bind_run; [|exact Hreq].
        rewrite Hs, Hd. reflexivity. }
      simpl. split; [done|]. split; [done|]. split.
      * intros data' (r' & [= <-] & _ & Hd'). split; [congruence | done].
      * intros [? | ?]; congruence.
    + eexists. split.
      { erewrite try_catch_throw; [reflexivity|].
        erewrite bind_run; [|exact Hreq]. rewrite Hs, Hd. reflexivity. }
      simpl. split; [done|]. split; [done|]. split.
      * intros data' (r' & [= <-] & _ & Hd'). congruence.
      * intros _. split; [done|]. eexists. split; [done|].
        intros pm. by apply (ApiFacts.failure_message_contains (Fulfilled r)).
    + eexists. split.
      { erewrite try_catch_throw; [reflexivity|].
        erewrite bind_run; [|exact Hreq]. rewrite Hs. reflexivity. }
      simpl. split; [done|]. split; [done|]. split.
      * intros data' (r' & [= <-] & Hs' & _). congruence.
      * intros _. split; [done|]. eexists. split; [done|].
        intros pm. by apply (ApiFacts.failure_message_contains (Fulfilled r)).
    + eexists. split.
      { erewrite try_catch_throw; [reflexivity|].
        erewrite bind_run; [|exact Hreq]. rewrite Hs. reflexivity. }
      simpl. split; [done|]. split; [done|]. split.
      * intros data' (r' & [= <-] & Hs' & _). congruence.
      * intros _. split; [done|]. eexists. split; [done|].
        intros pm. by apply (ApiFacts.failure_message_contains (Fulfilled r)).
  - destruct (TicketFacts.in_browser_rejected (ticket.get_tickets b) a1 e Ho)
      as (w' & Hreq & Hst).
    eexists. split.
    { erewrite try_catch_throw; [reflexivity|].
      erewrite bind_run_throw; [reflexivity | exact Hreq]. }
    simpl. split; [done|]. split; [done|]. split.
    + intros data' (r' & [=] & _).
    + intros _. split; [done|]. eexists. split; [done|].
      intros pm. by apply (ApiFacts.failure_message_contains
                              (T:=list ticket.ITicket) (Rejected e)).
Qed.

Section TicketMutations.
Import ticket TicketStore.
Context (b : Backend) (a : App).

(** X6. A [createTicket] the back end grants returns the new ticket and
    puts it in front of the list, every earlier ticket kept in order; the
    loading flag, the browser and an error recorded earlier all stay as
    they were. *)
Theorem createTicket_prepends (ticketData : PartialITicket)
    (newTicket : ITicket) :
  api_succeeded
    (post_tickets b (api.authorization (browser a)) ticketData) newTicket →
  ∃ a', createTicket b ticketData a = (Normal newTicket, a')
        ∧ tickets (state a') = newTicket :: tickets (state a)
        ∧ loading (state a') = loading (state a)
        ∧ error (state a') = error (state a)
        ∧ browser a' = browser a.
Proof.
  intros (r & Ho & Hs & Hd). eexists. split.
  - unfold createTicket. apply try_catch_normal.
    erewrite bind_run;
      [|exact (TicketFacts.in_browser_fulfilled
                 (λ h, post_tickets b h ticketData) a r Ho)].
    rewrite Hs, Hd. reflexivity.
  - done.
Qed.

(** X8. An [updateTicket] the back end grants keeps the length of the list
    and every ticket with another id in its place, and puts the ticket the
    back end sent in the place of every ticket with the id; when no ticket
    has the id the list is unchanged. *)
Theorem updateTicket_replaces (id : string) (updates : PartialITicket)
    (updatedTicket : ITicket) :
  api_succeeded
    (patch_ticket b (api.authorization (browser a)) id updates)
    updatedTicket →
  ∃ a', updateTicket b id updates a = (Normal (), a')
        ∧ length (tickets (state a')) = length (tickets (state a))
        ∧ (∀ i t, tickets (state a) !! i = Some t → ticket_id t ≠ id →
                  tickets (state a') !! i = Some t)
        ∧ (∀ i t, tickets (state a) !! i = Some t → ticket_id t = id →
                  tickets (state a') !! i = Some updatedTicket)
        ∧ ((∀ t, t ∈ tickets (state a) → ticket_id t ≠ id) →
           tickets (state a') = tickets (state a))
        ∧ error (state a') = error (state a)
        ∧ browser a' = browser a.
Proof.
  intros (r & Ho & Hs & Hd). eexists. split.
  - unfold updateTicket. apply try_catch_normal.
    erewrite bind_run;
      [|exact (TicketFacts.in_browser_fulfilled
                 (λ h, patch_ticket b h id updates) a r Ho)].
    rewrite Hs, Hd. reflexivity.
  - simpl. split; [apply length_fmap|]. split; [|split; [|split]].
    + intros i t Hi Hne. rewrite list_lookup_fmap, Hi. simpl.
      by rewrite bool_decide_eq_false_2.
    + intros i t Hi Heq. rewrite list_lookup_fmap, Hi. simpl.
      by rewrite bool_decide_eq_true_2.
    + intros Hnone. induction (tickets (state a)) as [|t l IH]; [done|].
      simpl. rewrite bool_decide_eq_false_2 by (apply Hnone; by left).
      f_equal. apply IH. intros t' Ht'. apply Hnone. by right.
    + done.
Qed.

(** X9. A [deleteTicket] the back end acknowledges leaves exactly the
    tickets with another id, in their order: no ticket with the id is left,
    and nothing else is lost. *)
Theorem deleteTicket_removes (id : string) :
  api_acknowledged (delete_ticket b (api.authorization (browser a)) id) →
  ∃ a', deleteTicket b id a = (Normal (), a')
        ∧ tickets (state a')
          = filter (λ t, ticket_id t ≠ id) (tickets (state a))
        ∧ (∀ t, t ∈ tickets (state a')
                ↔ t ∈ tickets (state a) ∧ ticket_id t ≠ id)
        ∧ tickets (state a') `sublist_of` tickets (state a)
        ∧ ((∀ t, t ∈ tickets (state a) → ticket_id t ≠ id) →
           tickets (state a') = tickets (state a))
        ∧ loading (state a') = loading (state a)
        ∧ error (state a') = error (state a)
        ∧ browser a' = browser a.
Proof.
  intros (r & Ho & Hs). eexists. split.
  - unfold deleteTicket. apply try_catch_normal.
    erewrite bind_run;
      [|exact (TicketFacts.in_browser_fulfilled
                 (λ h, delete_ticket b h id) a r Ho)].
    rewrite Hs. reflexivity.
  - simpl. split; [done|]. split; [|split; [|split]].
    + intros t. rewrite list_elem_of_filter. tauto.
    + apply sublist_filter.
    + intros Hnone. induction (tickets (state a)) as [|t l IH]; [done|].
      rewrite filter_cons_True by (apply Hnone; by left).
      f_equal. apply IH. intros t' Ht'. apply Hnone. by right.
    + done.
Qed.

End TicketMutations.

Lemma fetchTickets_settles_witness :
  ∃ a', TicketStore.fetchTickets TicketScenario.backend TicketScenario.app
        = (Normal (), a')
        ∧ ticket.tickets (TicketStore.state a')
          = [TicketScenario.ticket_1; TicketScenario.ticket_2]
        ∧ ticket.error (TicketStore.state a') = None.
Proof.
  destruct (fetchTickets_settles TicketScenario.backend TicketScenario.app)
    as (a' & Hrun & _ & _ & Hok & _).
  exists a'. split; [exact Hrun|].
  apply Hok. eexists. split; [reflexivity|]. split; reflexivity.
Defined.

Lemma createTicket_prepends_witness :
  ∃ a', TicketStore.createTicket TicketScenario.backend
          TicketHistory.reopen_patch TicketScenario.app
        = (Normal TicketScenario.ticket_3, a')
        ∧ ticket.tickets (TicketStore.state a')
          = [TicketScenario.ticket_3; TicketScenario.ticket_1;
             TicketScenario.ticket_2].
Proof.
  destruct (createTicket_prepends TicketScenario.backend TicketScenario.app
              TicketHistory.reopen_patch TicketScenario.ticket_3)
    as (a' & Hrun & Htickets & _).
  - eexists. split; [reflexivity|]. split; reflexivity.
  - exists a'. split; [exact Hrun | exact Htickets].
Defined.

Lemma updateTicket_replaces_witness :
  ∃ a', TicketStore.updateTicket TicketScenario.backend "tkt-000001"
          TicketHistory.reopen_patch TicketScenario.app
        = (Normal (), a')
        ∧ ticket.tickets (TicketStore.state a') !! 0
          = Some TicketScenario.ticket_1_reopened
        ∧ ticket.tickets (TicketStore.state a') !! 1
          = Some TicketScenario.ticket_2.
Proof.
  destruct (updateTicket_replaces TicketScenario.backend TicketScenario.app
              "tkt-000001" TicketHistory.reopen_patch
              TicketScenario.ticket_1_reopened)
    as (a' & Hrun & _ & Hother & Hsame & _).
  - eexists. split; [reflexivity|]. split; reflexivity.
  - exists a'. split; [exact Hrun|]. split.
    + by apply (Hsame 0 TicketScenario.ticket_1).
    + by apply (Hother 1 TicketScenario.ticket_2).
Defined.

Lemma deleteTicket_removes_witness :
  ∃ a', TicketStore.deleteTicket TicketScenario.backend "tkt-000001"
          TicketScenario.app
        = (Normal (), a')
        ∧ (TicketScenario.ticket_1 ∉ ticket.tickets (TicketStore.state a'))
        ∧ (TicketScenario.ticket_2 ∈ ticket.tickets (TicketStore.state a')).
Proof.
  destruct (deleteTicket_removes TicketScenario.backend TicketScenario.app
              "tkt-000001")
    as (a' & Hrun & _ & Hmem & _).
  - eexists. split; reflexivity.
  - exists a'. split; [exact Hrun|]. split.
    + intros [_ Hne]%Hmem. by apply Hne.
    + apply Hmem. split; [|discriminate]. apply list_elem_of_In. simpl. tauto.
Defined.

(** X7. A [createTicket], [updateTicket] or [deleteTicket] the back end
    does not grant rejects with an error whose message it also records in
    the store's [error]; the message carries the back end's, and the
    tickets, the loading flag and the auth store stay as they were. *)
Theorem ticket_mutation_failure (b : ticket.Backend) (a : TicketStore.App) :
  let unchanged (m : string) (a' : TicketStore.App) :=
    ticket.error (TicketStore.state a') = Some m
    ∧ ticket.tickets (TicketStore.state a')
      = ticket.tickets (TicketStore.state a)
    ∧ ticket.loading (TicketStore.state a')
      = ticket.loading (TicketStore.state a)
    ∧ store (TicketStore.browser a') = store (TicketStore.browser a) in
  let h := api.authorization (TicketStore.browser a) in
  (∀ ticketData,
     api_failed (ticket.post_tickets b h ticketData) →
     ∃ m a', TicketStore.createTicket b ticketData a
             = (Throw (new_Error m), a')
             ∧ unchanged m a'
             ∧ ∀ pm, api_provider_message (ticket.post_tickets b h ticketData)
                     = Some pm → contains m pm)
  ∧ (∀ id updates,
       api_failed (ticket.patch_ticket b h id updates) →
       ∃ m a', TicketStore.updateTicket b id updates a
               = (Throw (new_Error m), a')
               ∧ unchanged m a'
               ∧ ∀ pm, api_provider_message
                         (ticket.patch_ticket b h id updates) = Some pm →
                       contains m pm)
  ∧ (∀ id,
       api_refused (ticket.delete_ticket b h id) →
       ∃ m a', TicketStore.deleteTicket b id a = (Throw (new_Error m), a')
               ∧ unchanged m a'
               ∧ ∀ pm, api_provider_message (ticket.delete_ticket b h id)
                       = Some pm → contains m pm).
Proof.
  intros unchanged h. subst unchanged h. split; [|split].
  - intros ticketData Hfail. unfold TicketStore.createTicket.
    destruct (ticket.post_tickets b _ ticketData) as [r|e] eqn:Ho.
    + eexists _, _. split.
      { erewrite try_catch_throw; [reflexivity|].
        erewrite bind_run;
          [|exact (TicketFacts.in_browser_fulfilled
                     (λ h, ticket.post_tickets b h ticketData) a r Ho)].
        destruct Hfail as [-> | ->];
          [reflexivity | by destruct (resp_success r)]. }
      split; [done|].
      intros pm.
        by apply (ApiFacts.failure_message_contains (Fulfilled r)).
    + destruct (TicketFacts.in_browser_rejected
                  (λ h, ticket.post_tickets b h ticketData) a e Ho)
        as (w' & Hreq & Hst).
      eexists _, _. split.
      { erewrite try_catch_throw; [reflexivity|].
        erewrite bind_run_throw; [reflexivity | exact Hreq]. }
      split; [done|].
      intros pm.
        by apply (ApiFacts.failure_message_contains
                    (T:=ticket.ITicket) (Rejected e)).
  - intros id updates Hfail. unfold TicketStore.updateTicket.
    destruct (ticket.patch_ticket b _ id updates) as [r|e] eqn:Ho.
    + eexists _, _. split.
      { erewrite try_catch_throw; [reflexivity|].
        erewrite bind_run;
          [|exact (TicketFacts.in_browser_fulfilled
                     (λ h, ticket.patch_ticket b h id updates) a r Ho)].
        destruct Hfail as [-> | ->];
          [reflexivity | by destruct (resp_success r)]. }
      split; [done|].
      intros pm.
        by apply (ApiFacts.failure_message_contains (Fulfilled r)).
    + destruct (TicketFacts.in_browser_rejected
                  (λ h, ticket.patch_ticket b h id updates) a e Ho)
        as (w' & Hreq & Hst).
      eexists _, _. split.
      { erewrite try_catch_throw; [reflexivity|].
        erewrite bind_run_throw; [reflexivity | exact Hreq]. }
      split; [done|].
      intros pm.
        by apply (ApiFacts.failure_message_contains
                    (T:=ticket.ITicket) (Rejected e)).
  - intros id Hfail. unfold TicketStore.deleteTicket.
    destruct (ticket.delete_ticket b _ id) as [r|e] eqn:Ho.
    + simpl in Hfail. eexists _, _. split.
      { erewrite try_catch_throw; [reflexivity|].
        erewrite bind_run;
          [|exact (TicketFacts.in_browser_fulfilled
                     (λ h, ticket.delete_ticket b h id) a r Ho)].
        rewrite Hfail. reflexivity. }
      split; [done|].
      intros pm.
        by apply (ApiFacts.failure_message_contains (Fulfilled r)).
    + destruct (TicketFacts.in_browser_rejected
                  (λ h, ticket.delete_ticket b h id) a e Ho)
        as (w' & Hreq & Hst).
      eexists _, _. split.
      { erewrite try_catch_throw; [reflexivity|].
        erewrite bind_run_throw; [reflexivity | exact Hreq]. }
      split; [done|].
      intros pm.
        by apply (ApiFacts.failure_message_contains
                    (T:=()) (Rejected e)).
Qed.

Lemma ticket_mutation_failure_witness :
  ∃ m a', TicketStore.deleteTicket TicketScenario.failing_backend
            "tkt-000009" TicketScenario.app
          = (Throw (new_Error m), a')
          ∧ ticket.error (TicketStore.state a') = Some m
          ∧ ticket.tickets (TicketStore.state a')
            = [TicketScenario.ticket_1; TicketScenario.ticket_2]
          ∧ contains m "Ticket not found".
Proof.
  destruct (proj2 (proj2 (ticket_mutation_failure
                            TicketScenario.failing_backend
                            TicketScenario.app)) "tkt-000009")
    as (m & a' & Hrun & (Herr & Htickets & _) & Hmsg); [reflexivity|].
  exists m, a'. split; [exact Hrun|]. split; [exact Herr|].
  split; [exact Htickets|]. by apply Hmsg.
Defined.

(** X10. Creating a ticket and then deleting it by its id, both granted,
    leaves the list without any ticket of that id; when the id was new to
    the list, the store is back exactly where it started. *)
Theorem createTicket_then_deleteTicket
    (b : ticket.Backend) (a : TicketStore.App)
    (ticketData : ticket.PartialITicket) (newTicket : ticket.ITicket) :
  let h := api.authorization (TicketStore.browser a) in
  api_succeeded (ticket.post_tickets b h ticketData) newTicket →
  api_acknowledged (ticket.delete_ticket b h (ticket.ticket_id newTicket)) →
  let a2 := (TicketStore.deleteTicket b (ticket.ticket_id newTicket)
               (TicketStore.createTicket b ticketData a).2).2 in
  ticket.tickets (TicketStore.state a2)
  = filter (λ t, ticket.ticket_id t ≠ ticket.ticket_id newTicket)
           (ticket.tickets (TicketStore.state a))
  ∧ ((∀ t, t ∈ ticket.tickets (TicketStore.state a) →
           ticket.ticket_id t ≠ ticket.ticket_id newTicket) →
     a2 = a).
Proof.
  intros h Hcreate Hdelete a2. subst a2 h.
  destruct (createTicket_prepends b a ticketData newTicket Hcreate)
    as (a1 & -> & Htickets & Hloading & Herror & Hbrowser).
  simpl. rewrite <- Hbrowser in Hdelete.
  destruct (deleteTicket_removes b a1 (ticket.ticket_id newTicket) Hdelete)
    as (a2 & -> & Hfilter & _ & _ & _ & Hloading2 & Herror2 & Hbrowser2).
  simpl. rewrite Htickets in Hfilter.
  rewrite filter_cons_False in Hfilter by (intros Hne; by apply Hne).
  split; [done|]. intros Hfresh.
  assert (Hsame : ticket.tickets (TicketStore.state a2)
                  = ticket.tickets (TicketStore.state a)).
  { rewrite Hfilter. clear -Hfresh.
    induction (ticket.tickets (TicketStore.state a)) as [|t l IH]; [done|].
    rewrite filter_cons_True by (apply Hfresh; by left).
    f_equal. apply IH. intros t' Ht'. apply Hfresh. by right. }
  destruct a as [w [ts ld er]], a1 as [w1 [ts1 ld1 er1]],
    a2 as [w2 [ts2 ld2 er2]].
  simpl in *. congruence.
Qed.

Lemma createTicket_then_deleteTicket_witness :
  (TicketStore.deleteTicket TicketScenario.backend "tkt-000003"
     (TicketStore.createTicket TicketScenario.backend
        TicketHistory.reopen_patch TicketScenario.app).2).2
  = TicketScenario.app.
Proof.
  refine (proj2 (createTicket_then_deleteTicket TicketScenario.backend
                   TicketScenario.app TicketHistory.reopen_patch
                   TicketScenario.ticket_3 _ _) _).
  - eexists. split; [reflexivity|]. split; reflexivity.
  - eexists. split; reflexivity.
  - intros t Ht. apply list_elem_of_In in Ht. simpl in Ht.
    destruct Ht as [<- | [<- | []]]; discriminate.
Defined.

(** ** The persisted draft *)

Section FormPersistFacts.
Import FormPersist.
Context (trim : string → string) (key : string).

Lemma persist_lookup (v : string) (m : gmap string string) :
  persist trim key v m !! storage_key key
  = match trim v with String _ _ => Some v | EmptyString => None end.
Proof.
  unfold persist. destruct (trim v);
    [apply lookup_delete_eq | apply lookup_insert_eq].
Qed.

Lemma persist_lookup_ne (v k : string) (m : gmap string string) :
  k ≠ storage_key key → persist trim key v m !! k = m !! k.
Proof.
  intros Hne. unfold persist. destruct (trim v);
    [by apply lookup_delete_ne | by apply lookup_insert_ne].
Qed.

(** The entry of the form's key says what the form holds. *)
Lemma act_synced (f : Form) (a : Action) :
  trim "" = "" →
  storage f !! storage_key key
  = match trim (value f) with String _ _ => Some (value f) | _ => None end →
  storage (act trim key f a) !! storage_key key
  = match trim (value (act trim key f a)) with
    | String _ _ => Some (value (act trim key f a))
    | EmptyString => None
    end.
Proof.
  intros Htrim Hf. destruct a as [v|]; simpl.
  - unfold setValue. case_bool_decide; [done|]. simpl. apply persist_lookup.
  - unfold clearPersistedValue, setValue. simpl. case_bool_decide as Hv.
    + simpl. rewrite <- Hv, Htrim. apply lookup_delete_eq.
    + simpl. apply persist_lookup.
Qed.

Lemma act_other_keys (f : Form) (a : Action) (k : string) :
  k ≠ storage_key key →
  storage (act trim key f a) !! k = storage f !! k.
Proof.
  intros Hne. destruct a as [v|]; simpl.
  - unfold setValue. case_bool_decide; [done|]. by apply persist_lookup_ne.
  - unfold clearPersistedValue, setValue. simpl.
    case_bool_decide; simpl; [|rewrite persist_lookup_ne by done];
      by apply lookup_delete_ne.
Qed.

End FormPersistFacts.

Lemma storage_key_inj : Inj (=) (=) FormPersist.storage_key.
Proof.
  intros k1 k2 H. unfold FormPersist.storage_key in H.
  by repeat apply String.app_inj in H.
Qed.

Lemma storage_key_not_auth_token (key : string) :
  FormPersist.storage_key key ≠ LOCAL_STORAGE_KEYS.AUTH_TOKEN.
Proof.
  unfold FormPersist.storage_key. intros H. vm_compute in H. discriminate H.
Qed.

(** X11. The draft survives a remount. After the hook is mounted and its
    value set or cleared any number of times, a new mount of the same key
    starts from the value held when that value has something besides white
    space, and from its own initial value otherwise: a blank draft is not
    kept. *)
Theorem draft_round_trip (trim : string → string) (key initialValue : string)
    (m : gmap string string) (acts : list FormPersist.Action)
    (initialValue' : string) :
  trim "" = "" →
  let f := foldl (FormPersist.act trim key)
                 (FormPersist.mount trim key initialValue m) acts in
  FormPersist.value
    (FormPersist.mount trim key initialValue' (FormPersist.storage f))
  = match trim (FormPersist.value f) with
    | String _ _ => FormPersist.value f
    | EmptyString => initialValue'
    end.
Proof.
  intros Htrim f.
  assert (Hsync :
    FormPersist.storage f !! FormPersist.storage_key key
    = match trim (FormPersist.value f) with
      | String _ _ => Some (FormPersist.value f)
      | EmptyString => None
      end).
  { subst f. induction acts as [|a acts IH] using rev_ind.
    - simpl. apply persist_lookup.
    - rewrite foldl_snoc. by apply act_synced. }
  simpl. unfold FormPersist.initial. rewrite Hsync.
  destruct (trim (FormPersist.value f)) eqn:Hv; [done|].
  simpl. apply or_str_nonempty. intros Hempty.
  rewrite Hempty, Htrim in Hv. discriminate Hv.
Qed.

Lemma draft_round_trip_witness :
  FormPersist.value
    (FormPersist.mount FormPersist.trim_ascii "chat" ""
       (FormPersist.storage
          (foldl (FormPersist.act FormPersist.trim_ascii "chat")
                 (FormPersist.mount FormPersist.trim_ascii "chat" "" ∅)
                 [FormPersist.act_setValue "  my screen is black "])))
  = "  my screen is black ".
Proof.
  pose proof (draft_round_trip FormPersist.trim_ascii "chat" "" ∅
                [FormPersist.act_setValue "  my screen is black "] ""
                eq_refl) as H.
  vm_compute in H. vm_compute. exact H.
Defined.

(** X12. The hook writes one entry only. Mounting it and setting or
    clearing its value never changes another entry of [localStorage]: not
    the draft of a form with another key, and not the auth token, so the
    header the next request carries is the same. *)
Theorem draft_touches_own_entry (trim : string → string)
    (key initialValue : string) (w : Browser)
    (acts : list FormPersist.Action) :
  let f := foldl (FormPersist.act trim key)
                 (FormPersist.mount trim key initialValue (localStorage w))
                 acts in
  (∀ k, k ≠ FormPersist.storage_key key →
        FormPersist.storage f !! k = localStorage w !! k)
  ∧ (∀ key', key' ≠ key →
             FormPersist.storage f !! FormPersist.storage_key key'
             = localStorage w !! FormPersist.storage_key key')
  ∧ api.authorization (with_storage (FormPersist.storage f) w)
    = api.authorization w.
Proof.
  intros f.
  assert (Hother : ∀ k, k ≠ FormPersist.storage_key key →
                        FormPersist.storage f !! k = localStorage w !! k).
  { intros k Hne. subst f. induction acts as [|a acts IH] using rev_ind.
    - simpl. by apply persist_lookup_ne.
    - rewrite foldl_snoc, act_other_keys by done. apply IH. }
  split; [done|]. split.
  - intros key' Hne. apply Hother. intros H. by apply storage_key_inj in H.
  - unfold api.authorization. simpl. rewrite Hother; [done|].
    intros H. symmetry in H. by apply storage_key_not_auth_token in H.
Qed.

Lemma draft_touches_own_entry_witness :
  let w := with_storage {[ LOCAL_STORAGE_KEYS.AUTH_TOKEN := "T1" ]}
                        Scenario.browser in
  FormPersist.storage
    (foldl (FormPersist.act FormPersist.trim_ascii "chat")
           (FormPersist.mount FormPersist.trim_ascii "chat" ""
              (localStorage w))
           [FormPersist.act_setValue "hello"; FormPersist.act_clear])
  !! LOCAL_STORAGE_KEYS.AUTH_TOKEN
  = localStorage w !! LOCAL_STORAGE_KEYS.AUTH_TOKEN.
Proof.
  apply (proj1 (draft_touches_own_entry FormPersist.trim_ascii "chat" ""
                  (with_storage {[ LOCAL_STORAGE_KEYS.AUTH_TOKEN := "T1" ]}
                                Scenario.browser)
                  [FormPersist.act_setValue "hello"; FormPersist.act_clear])).
  intros Heq. symmetry in Heq. by apply storage_key_not_auth_token in Heq.
Defined.

(** ** Hooks and pages around the store *)

Section RequireAdminFacts.
Context (useAuth_effect : Loop Browser → Loop Browser) (l : Loop Browser).
Context (Hworld : world (useAuth_effect l) = world l
                  ∨ world (useAuth_effect l)
                    = with_store signed_out (world l)).



End RequireAdminFacts.




Section LoginPageFacts.
Import LoginPage.
Context {S : Type} (login : ILoginCredentials → Async S unit).

(** X14. [onSubmit] of the login page never throws and always ends with
    the loading flag down. When [login] resolves it shows the welcome toast
    and navigates, replacing, to the location the user came from, or to the
    chat when there is none, with no error shown; when [login] rejects it
    shows the thrown message as the error and in a toast, and does not
    navigate. Either way the store is left as [login] left it. *)
Theorem onSubmit_outcome (state_from : option string)
    (data : ILoginCredentials) (p : Page S) :
  let credentials := {| cred_email := cred_email data;
                        cred_password := cred_password data |} in
  ∃ p', onSubmit login state_from data p = (Normal (), p')
        ∧ isLoading p' = false
        ∧ auth p' = (login credentials (auth p)).2
        ∧ match (login credentials (auth p)).1 with
          | Normal _ =>
              error p' = None
              ∧ navigated p' = Some (from state_from, true)
              ∧ ∃ t, toasts p' = (toasts p ++ [t])%list ∧ variant t = None
          | Throw e =>
              error p' = Some (message e)
              ∧ navigated p' = navigated p
              ∧ ∃ t, toasts p' = (toasts p ++ [t])%list
                     ∧ variant t = Some "destructive"
                     ∧ description t = message e
          end.
Proof.
  intros credentials. unfold onSubmit.
  unfold try_finally, try_catch, in_store, setIsLoading, setError, toast,
    navigate, modify, mbind, Async_bind, bind. simpl.
  fold credentials.
  destruct (login credentials (auth p)) as [[[]|e] s'] eqn:Hlogin; simpl;
    eexists; (split; [reflexivity|]); simpl; eauto 10.
Qed.

End LoginPageFacts.

Lemma from_nonempty (state_from : option string) :
  LoginPage.from state_from ≠ "".
Proof. by destruct state_from as [[|c s]|]. Qed.

Lemma from_recorded (location : string) :
  location ≠ "" → LoginPage.from (Some location) = location.
Proof. intros H. by apply or_str_nonempty. Qed.

Lemma href_is_pathname (l : Router.Location) :
  Router.href l = Router.pathname l
  ↔ Router.search l = "" ∧ Router.hash l = "".
Proof.
  unfold Router.href. split.
  - intros H. rewrite <- (append_empty_r (Router.pathname l)) in H at 2.
    apply String.app_inj in H.
    destruct (Router.search l); [done | discriminate H].
  - intros [-> ->]. apply append_empty_r.
Qed.

(** X15. Back to the path the user was headed for. A signed-out visitor of
    a protected location is sent to the login page with the location
    recorded; the login page, handed that location as the [from] of the
    router state, reads its pathname, so when the provider grants the login
    the page navigates to that pathname, where the guard, asked for no
    role, renders its children. The query string and the hash of the
    original location are not restored: the user is back at the original
    location only when it had neither. *)
Theorem login_returns_to_pathname
    (supabase : supabase_js.AuthClient) (data : ILoginCredentials)
    (r : supabase_js.AuthResponse) (u : supabase_js.User)
    (ss : supabase_js.Session) (requireRole : option Guard.Role)
    (location : Router.Location) :
  Router.pathname location ≠ "" →
  supabase_answered
    (supabase_js.signInWithPassword supabase
       (SupabaseStore.signIn_request data)) r →
  supabase_js.data_user r = Some u →
  supabase_js.data_session r = Some ss →
  ∃ p', Guard.render signed_out requireRole (Router.href location)
        = Guard.Navigate ROUTES.LOGIN (Some (Router.href location)) true
        ∧ LoginPage.onSubmit (SupabaseStore.login supabase)
            (LoginPage.state_from_pathname (Some location)) data
            (LoginPage.fresh signed_out)
          = (Normal (), p')
        ∧ LoginPage.navigated p' = Some (Router.pathname location, true)
        ∧ LoginPage.error p' = None
        ∧ Guard.render (LoginPage.auth p') None (Router.pathname location)
          = Guard.children
        ∧ (LoginPage.navigated p' = Some (Router.href location, true)
           ↔ Router.search location = "" ∧ Router.hash location = "").
Proof.
  intros Hloc [Ho He] Hu Hs.
  change (LoginPage.state_from_pathname (Some location))
    with (Some (Router.pathname location)).
  destruct (onSubmit_outcome (SupabaseStore.login supabase)
              (Some (Router.pathname location)) data
              (LoginPage.fresh signed_out))
    as (p' & Hrun & _ & Hauth & Hcase).
  rewrite (SupabaseFacts.login_signed_in supabase
             {| cred_email := cred_email data;
                cred_password := cred_password data |}
             r u ss _ Ho He Hu Hs)
    in Hauth, Hcase.
  destruct Hcase as (Herr & Hnav & _).
  rewrite from_recorded in Hnav by done.
  exists p'. split; [done|]. split; [done|].
  split; [done|]. split; [done|]. split; [by rewrite Hauth|].
  rewrite Hnav, <- href_is_pathname. split.
  - by intros [= ->].
  - by intros ->.
Qed.

Lemma login_returns_to_pathname_witness :
  let location := {| Router.pathname := "/tickets";
                     Router.search := "?status=open";
                     Router.hash := "#top" |} in
  ∃ p', Guard.render signed_out None (Router.href location)
        = Guard.Navigate ROUTES.LOGIN (Some (Router.href location)) true
        ∧ LoginPage.onSubmit
            (SupabaseStore.login (Scenario.provider Scenario.user_1))
            (LoginPage.state_from_pathname (Some location))
            Scenario.credentials
            (LoginPage.fresh signed_out)
          = (Normal (), p')
        ∧ LoginPage.navigated p' = Some ("/tickets", true)
        ∧ LoginPage.navigated p' ≠ Some (Router.href location, true).
Proof.
  destruct (login_returns_to_pathname (Scenario.provider Scenario.user_1)
              Scenario.credentials (Scenario.granted Scenario.user_1)
              Scenario.user_1 (Scenario.session_of Scenario.user_1) None
              {| Router.pathname := "/tickets";
                 Router.search := "?status=open";
                 Router.hash := "#top" |})
    as (p' & Hguard & Hrun & Hnav & _ & _ & Hexact);
    [discriminate | by split | reflexivity | reflexivity |].
  exists p'. split; [exact Hguard|]. split; [exact Hrun|].
  split; [exact Hnav|].
  intros H. apply Hexact in H. destruct H as [H _]. discriminate H.
Defined.

(** X16. A login answered without a session bounces. When the provider
    answers the sign-in without an error and without a user or a session,
    the login page of a signed-out visitor shows the welcome toast and no
    error, and navigates to where the visitor came from; the store is still
    signed out, so the guard there sends the visitor back to the login page
    with the same return location. *)
Theorem login_without_session_bounces
    (supabase : supabase_js.AuthClient) (data : ILoginCredentials)
    (r : supabase_js.AuthResponse) (state_from : option string)
    (requireRole : option Guard.Role) :
  supabase_answered
    (supabase_js.signInWithPassword supabase
       (SupabaseStore.signIn_request data)) r →
  supabase_js.data_user r = None ∨ supabase_js.data_session r = None →
  let target := LoginPage.from state_from in
  ∃ p', LoginPage.onSubmit (SupabaseStore.login supabase) state_from data
          (LoginPage.fresh signed_out)
        = (Normal (), p')
        ∧ LoginPage.error p' = None
        ∧ (∃ t, LoginPage.toasts p' = [t] ∧ LoginPage.variant t = None)
        ∧ LoginPage.navigated p' = Some (target, true)
        ∧ LoginPage.auth p' = signed_out
        ∧ Guard.render (LoginPage.auth p') requireRole target
          = Guard.Navigate ROUTES.LOGIN (Some target) true
        ∧ LoginPage.from (Some target) = target.
Proof.
  intros [Ho He] Hmiss target.
  destruct (onSubmit_outcome (SupabaseStore.login supabase) state_from
              data (LoginPage.fresh signed_out))
    as (p' & Hrun & _ & Hauth & Hcase).
  rewrite (SupabaseFacts.login_incomplete supabase
             {| cred_email := cred_email data;
                cred_password := cred_password data |}
             r _ Ho He Hmiss)
    in Hauth, Hcase.
  destruct Hcase as (Herr & Hnav & t & Htoasts & Hvariant).
  exists p'. split; [done|]. split; [done|].
  split; [by exists t|]. split; [done|]. split; [done|].
  split; [by rewrite Hauth|].
  apply from_recorded, from_nonempty.
Qed.

Lemma login_without_session_bounces_witness :
  ∃ p', LoginPage.onSubmit
          (SupabaseStore.login Scenario.confirming_provider) (Some "/tickets")
          Scenario.credentials (LoginPage.fresh signed_out)
        = (Normal (), p')
        ∧ LoginPage.navigated p' = Some ("/tickets", true)
        ∧ Guard.render (LoginPage.auth p') None "/tickets"
          = Guard.Navigate ROUTES.LOGIN (Some "/tickets") true.
Proof.
  destruct (login_without_session_bounces Scenario.confirming_provider
              Scenario.credentials (Scenario.pending Scenario.user_1)
              (Some "/tickets") None)
    as (p' & Hrun & _ & _ & Hnav & _ & Hguard & _);
    [by split | by right |].
  exists p'. split; [exact Hrun|]. split; [exact Hnav | exact Hguard].
Defined.

(** ** The layout *)

(** X17. The navigation shows the chat and the ticket history to everyone,
    and the admin dashboard exactly to the users the guard of the admin
    route lets in: those whose role is "admin". *)
Theorem admin_link_matches_guard (user : option IUser) (location : string) :
  ROUTES.CHAT ∈ Layout.nav_links user
  ∧ ROUTES.TICKET_HISTORY ∈ Layout.nav_links user
  ∧ (ROUTES.ADMIN_DASHBOARD ∈ Layout.nav_links user
     ↔ ∃ u, user = Some u ∧ user_role u = "admin")
  ∧ (ROUTES.ADMIN_DASHBOARD ∈ Layout.nav_links user
     ↔ Guard.ProtectedRoute (Some true) user (Some Guard.role_admin) location
       = Guard.children).
Proof.
  assert (Hlinks :
    Layout.nav_links user
    = if bool_decide (user_role <$> user = Some "admin")
      then [ROUTES.CHAT; ROUTES.TICKET_HISTORY; ROUTES.ADMIN_DASHBOARD]
      else [ROUTES.CHAT; ROUTES.TICKET_HISTORY]).
  { unfold Layout.nav_links, Layout.navItems.
    by case_bool_decide. }
  assert (Hadmin :
    ROUTES.ADMIN_DASHBOARD ∈ Layout.nav_links user
    ↔ user_role <$> user = Some "admin").
  { rewrite Hlinks. case_bool_decide as H; split; try done.
    - intros _. apply list_elem_of_In. simpl. tauto.
    - intros Hin. apply list_elem_of_In in Hin. simpl in Hin.
      destruct Hin as [Hin | [Hin | []]]; discriminate Hin. }
  split; [|split; [|split]].
  - rewrite Hlinks. apply list_elem_of_In. case_bool_decide; simpl; tauto.
  - rewrite Hlinks. apply list_elem_of_In. case_bool_decide; simpl; tauto.
  - rewrite Hadmin. destruct user as [u|]; simpl; split.
    + intros [= H]. eauto.
    + intros (u' & [= <-] & ->). done.
    + done.
    + by intros (u' & ? & _).
  - rewrite Hadmin. destruct user as [u|].
    + simpl. split.
      * intros [= H]. apply ProtectedRoute_authorized.
        right. by exists Guard.role_admin.
      * intros Hguard. f_equal.
        destruct (decide (user_role u = "admin")) as [|Hne]; [done|].
        rewrite (ProtectedRoute_forbidden (Some Guard.role_admin) location u
                   Guard.role_admin eq_refl Hne) in Hguard.
        discriminate Hguard.
    + simpl. split; [done|]. intros H. discriminate H.
Qed.

(** X18. [handleLogout] sends the router to the login route at once and
    leaves the sign-out to settle. In the Supabase store nothing has
    changed when the handler returns, so a signed-in user is still let
    through by the guard; the store is signed out once the call has
    settled, whatever the provider did with the sign-out request. In the
    API store the store is signed out and the token gone when the handler
    returns. Signed out, every guarded location redirects to the login
    page. *)
Theorem handleLogout_signs_out (requireRole : option Guard.Role)
    (location : string) :
  (∀ (supabase : supabase_js.AuthClient) (s : IAuthStore)
     (route : option string),
     let r := Layout.handleLogout (SupabaseCalls.logout supabase)
                (idle s, route) in
     r.2 = Some ROUTES.LOGIN
     ∧ world r.1 = s
     ∧ (∀ u t, s = signed_in u t →
               Guard.render (world r.1) None location = Guard.children)
     ∧ drain r.1 = signed_out
     ∧ Guard.render (drain r.1) requireRole location
       = Guard.Navigate ROUTES.LOGIN (Some location) true)
  ∧ (∀ (b : api.Backend) (w : Browser) (route : option string),
       let r := Layout.handleLogout (ApiCalls.logout b) (idle w, route) in
       r.2 = Some ROUTES.LOGIN
       ∧ store (world r.1) = signed_out
       ∧ api.authorization (world r.1) = None
       ∧ Guard.render (store (world r.1)) requireRole location
         = Guard.Navigate ROUTES.LOGIN (Some location) true
       ∧ store (drain r.1) = signed_out).
Proof.
  split.
  - intros supabase s route r. subst r. simpl.
    split; [done|]. split; [done|]. split.
    + intros u t ->. by apply ProtectedRoute_authorized; left.
    + rewrite drain_invoke_idle. unfold whole. simpl.
      by rewrite SupabaseFacts.logout_run.
  - intros b w route r. subst r. simpl.
    split; [done|]. split; [done|]. split.
    + apply bearer_None_of_no_token. simpl. apply lookup_delete_eq.
    + split; [done|].
      rewrite drain_invoke_idle, api_logout_whole.
      by destruct (ApiFacts.api_logout_run b w) as (w' & -> & Hst & _).
Qed.

Lemma handleLogout_signs_out_witness :
  let r := Layout.handleLogout
             (SupabaseCalls.logout (Scenario.provider Scenario.user_1))
             (idle (signed_in Scenario.plain_user "T1"), None) in
  r.2 = Some ROUTES.LOGIN
  ∧ Guard.render (world r.1) None "/tickets" = Guard.children
  ∧ drain r.1 = signed_out.
Proof.
  destruct (proj1 (handleLogout_signs_out None "/tickets")
              (Scenario.provider Scenario.user_1)
              (signed_in Scenario.plain_user "T1") None)
    as (Hroute & _ & Hstill & Hdrain & _).
  split; [exact Hroute|]. split; [|exact Hdrain].
  by apply (Hstill Scenario.plain_user "T1").
Defined.

(** ** The chat page *)

Section ChatFacts.
Import Chat.
Context {F : Type} (reset clearPersistedValue : F → F).
Context (clock : Clock) (invoke : string → settled InvokeResult).

(** X19. [onSubmit] of the chat never throws and appends exactly two
    messages behind those already shown: the user's, then one of type ai.
    The second carries the function's answer and ticket id when the call
    was answered with data and without an error, and the apology, without
    a ticket id, in every other case. One toast is shown, and the loading
    flag is down at the end. *)
Theorem chat_onSubmit_appends (msg : string) (p : Page F) :
  ∃ p' reply,
    onSubmit reset clearPersistedValue clock invoke msg p = (Normal (), p')
    ∧ messages p'
      = (messages p
         ++ [ {| msg_id := pretty (now_sent clock);
                 msg_type := type_user;
                 msg_content := msg;
                 msg_timestamp := iso_sent clock;
                 msg_ticketId := None |};
              reply ])%list
    ∧ msg_type reply = type_ai
    ∧ msg_id reply = pretty (now_answered clock + 1)%Z
    ∧ msg_timestamp reply = iso_answered clock
    ∧ match invoke msg with
      | Fulfilled {| invoke_data := Some ai; invoke_error := None |} =>
          msg_content reply = reply_response ai
          ∧ msg_ticketId reply = reply_ticketId ai
      | _ => msg_content reply = apology ∧ msg_ticketId reply = None
      end
    ∧ isLoading p' = false
    ∧ form p' = clearPersistedValue (reset (form p))
    ∧ ∃ t, toasts p' = (toasts p ++ [t])%list.
Proof.
  unfold onSubmit, try_finally, try_catch, await, setIsLoading, setMessages,
    on_form, toast, modify, throw, mbind, mret, Async_bind, Async_ret, bind,
    ret.
  simpl.
  destruct (invoke msg) as [[[ai|] [e|]]|e]; simpl;
    eexists _, _; (split; [reflexivity|]); simpl;
    rewrite <- ?app_assoc; simpl; eauto 12.
Qed.

(** X20. The two messages of one exchange get the same id exactly when the
    clock read, at the answer, one millisecond less than at the question;
    with a clock that does not run backwards their ids differ. *)
Theorem chat_ids_differ (msg : string) (p : Page F) :
  ∃ p' question reply l,
    onSubmit reset clearPersistedValue clock invoke msg p = (Normal (), p')
    ∧ messages p' = (l ++ [question; reply])%list
    ∧ (msg_id question = msg_id reply
       ↔ now_sent clock = (now_answered clock + 1)%Z)
    ∧ ((now_sent clock ≤ now_answered clock)%Z →
       msg_id question ≠ msg_id reply).
Proof.
  destruct (chat_onSubmit_appends msg p)
    as (p' & reply & Hrun & Hmsgs & _ & Hid & _).
  eexists p', _, reply, (messages p).
  split; [exact Hrun|]. split; [exact Hmsgs|]. simpl. rewrite Hid.
  split.
  - split; [apply (inj pretty) | by intros ->].
  - intros Hle Heq. apply (inj pretty) in Heq. lia.
Qed.

End ChatFacts.

Lemma chat_ids_differ_witness :
  ∃ p' question reply l,
    Chat.onSubmit id id
      {| Chat.now_sent := 1700000000000; Chat.iso_sent := "2023-11-14T22:13:20.000Z";
         Chat.now_answered := 1700000000900;
         Chat.iso_answered := "2023-11-14T22:13:20.900Z" |}
      (λ _, Rejected (new_Error "Failed to fetch")) "my screen is black"
      {| Chat.messages := []; Chat.isLoading := false; Chat.toasts := [];
         Chat.form := () |}
    = (Normal (), p')
    ∧ Chat.messages p' = (l ++ [question; reply])%list
    ∧ Chat.msg_id question ≠ Chat.msg_id reply.
Proof.
  destruct (chat_ids_differ id id
              {| Chat.now_sent := 1700000000000;
                 Chat.iso_sent := "2023-11-14T22:13:20.000Z";
                 Chat.now_answered := 1700000000900;
                 Chat.iso_answered := "2023-11-14T22:13:20.900Z" |}
              (λ _, Rejected (new_Error "Failed to fetch"))
              "my screen is black"
              {| Chat.messages := []; Chat.isLoading := false;
                 Chat.toasts := []; Chat.form := () |})
    as (p' & question & reply & l & Hrun & Hmsgs & _ & Hne).
  exists p', question, reply, l.
  split; [exact Hrun|]. split; [exact Hmsgs|]. apply Hne. simpl. lia.
Defined.

(** ** The ticket history page *)

Lemma prefix_true (sub s : string) :
  String.prefix sub s = true ↔ ∃ post, s = sub +:+ post.
Proof.
  revert s. induction sub as [|c sub IH]; intros s.
  - split; [intros _; by exists s | by destruct s].
  - destruct s as [|c' s]; simpl.
    + split; [done | by intros [post [=]]].
    + destruct (Ascii.ascii_dec c c') as [<-|Hne].
      * rewrite IH. split.
        -- intros [post ->]. by exists post.
        -- intros [post [= ->]]. by exists post.
      * split; [done|]. intros [post [= ? _]]. done.
Qed.

Lemma includes_nil (sub : string) :
  TicketHistory.includes "" sub = String.prefix sub "" || false.
Proof. done. Qed.

Lemma includes_cons (c : Ascii.ascii) (s sub : string) :
  TicketHistory.includes (String c s) sub
  = String.prefix sub (String c s) || TicketHistory.includes s sub.
Proof. done. Qed.

(** [includes] is the substring test. *)
Lemma includes_contains (s sub : string) :
  TicketHistory.includes s sub = true ↔ contains s sub.
Proof.
  induction s as [|c s IH].
  - rewrite includes_nil, orb_false_r, prefix_true. split.
    + intros [post ->]. by exists "", post.
    + intros ([|c pre] & post & H); [by exists post | discriminate H].
  - rewrite includes_cons, orb_true_iff, prefix_true, IH. split.
    + intros [[post ->] | (pre & post & ->)].
      * by exists "", post.
      * by exists (String c pre), post.
    + intros ([|c' pre] & post & H).
      * left. by exists post.
      * right. injection H as -> ->. by exists pre, post.
Qed.

Lemma includes_empty (s : string) : TicketHistory.includes s "" = true.
Proof. apply includes_contains, contains_empty. Qed.

Section TicketHistoryFacts.
Import ticket TicketHistory.
Context (toLowerCase : string → string).

(** X21. The list shown is the tickets that match, in their order: a
    ticket is shown exactly when it is in the store, the lower-cased search
    term occurs in its lower-cased title, description or id, and each of
    the two filters is "all" or names its status, respectively its
    priority. Never more tickets are shown than there are. *)
Theorem filteredTickets_exact (searchTerm statusFilter priorityFilter : string)
    (tickets : list ITicket) :
  let shown := filteredTickets toLowerCase searchTerm statusFilter
                 priorityFilter tickets in
  shown `sublist_of` tickets
  ∧ (length shown ≤ length tickets)%nat
  ∧ ∀ t, t ∈ shown
         ↔ t ∈ tickets
           ∧ (contains (toLowerCase (ticket_title t)) (toLowerCase searchTerm)
              ∨ contains (toLowerCase (ticket_description t))
                         (toLowerCase searchTerm)
              ∨ contains (toLowerCase (ticket_id t)) (toLowerCase searchTerm))
           ∧ (statusFilter = "all"
              ∨ Status_literal (ticket_status t) = statusFilter)
           ∧ (priorityFilter = "all"
              ∨ Priority_literal (ticket_priority t) = priorityFilter).
Proof.
  intros shown. subst shown. unfold filteredTickets.
  split; [apply sublist_filter|]. split; [apply length_filter|].
  intros t. rewrite list_elem_of_filter. unfold matches.
  rewrite !andb_true_iff, !orb_true_iff, !includes_contains,
    !bool_decide_eq_true.
  tauto.
Qed.

(** X22. With an empty search term and both filters on "all", every ticket
    is shown. *)
Theorem filteredTickets_all (tickets : list ITicket) :
  toLowerCase "" = "" →
  filteredTickets toLowerCase "" "all" "all" tickets = tickets.
Proof.
  intros Hlower. unfold filteredTickets.
  induction tickets as [|t l IH]; [done|].
  rewrite filter_cons_True; [by rewrite IH|].
  unfold matches. by rewrite Hlower, includes_empty.
Qed.

End TicketHistoryFacts.

Lemma getStatusCount_cons (t : ticket.ITicket) (l : list ticket.ITicket)
    (status : string) :
  TicketHistory.getStatusCount (t :: l) status
  = (if bool_decide (ticket.Status_literal (ticket.ticket_status t) = status)
     then 1 else 0)
    + TicketHistory.getStatusCount l status.
Proof.
  unfold TicketHistory.getStatusCount. rewrite filter_cons.
  destruct (decide _) as [H|H].
  - by rewrite bool_decide_eq_true_2.
  - by rewrite bool_decide_eq_false_2.
Qed.

(** X23. The four status cards add up: the counts of [getStatusCount] over
    the values of [TICKET_STATUSES] sum to the number of tickets. *)
Theorem status_counts_sum (tickets : list ticket.ITicket) :
  sum_list (TicketHistory.getStatusCount tickets
            <$> TicketHistory.TICKET_STATUSES)
  = length tickets.
Proof.
  induction tickets as [|t l IH]; [done|].
  unfold TicketHistory.TICKET_STATUSES in *. simpl in *.
  rewrite !getStatusCount_cons.
  destruct (ticket.ticket_status t); simpl; lia.
Qed.

Lemma filteredTickets_all_witness :
  TicketHistory.filteredTickets TicketHistory.toLowerCase_ascii "" "all" "all"
    [TicketScenario.ticket_1; TicketScenario.ticket_2]
  = [TicketScenario.ticket_1; TicketScenario.ticket_2].
Proof.
  apply (filteredTickets_all TicketHistory.toLowerCase_ascii). reflexivity.
Defined.

(** A search is case-blind on both sides, and a status filter narrows it. *)
Example filteredTickets_search :
  TicketHistory.filteredTickets TicketHistory.toLowerCase_ascii "vpn" "all"
    "all" [TicketScenario.ticket_1; TicketScenario.ticket_2]
  = [TicketScenario.ticket_2]
  ∧ TicketHistory.filteredTickets TicketHistory.toLowerCase_ascii "T" "resolved"
      "all" [TicketScenario.ticket_1; TicketScenario.ticket_2]
    = [TicketScenario.ticket_1].
Proof. by vm_compute. Qed.

(** X24. [handleRefresh] never throws and always shows the "Refreshed"
    toast, with the refresh flag down at the end, also when the fetch
    failed: [fetchTickets] keeps its failure in the store's [error], so the
    failure toast of [handleRefresh] is never shown. *)
Theorem handleRefresh_always_refreshed (b : ticket.Backend)
    (p : TicketHistory.Page) :
  ∃ p', TicketHistory.handleRefresh b p = (Normal (), p')
        ∧ TicketHistory.toasts p'
          = (TicketHistory.toasts p ++ [TicketHistory.refreshed])%list
        ∧ TicketHistory.isRefreshing p' = false
        ∧ TicketHistory.app p'
          = (TicketStore.fetchTickets b (TicketHistory.app p)).2
        ∧ (api_failed
             (ticket.get_tickets b
                (api.authorization (TicketStore.browser (TicketHistory.app p)))) →
           is_Some (ticket.error (TicketStore.state (TicketHistory.app p')))).
Proof.
  destruct (fetchTickets_settles b (TicketHistory.app p))
    as (a' & Hrun & _ & _ & _ & Hfail).
  eexists. split.
  - unfold TicketHistory.handleRefresh, TicketHistory.try_finally,
      TicketHistory.setIsRefreshing, TicketHistory.toast, try_catch, modify,
      TicketHistory.in_app, mbind, Async_bind, bind.
    simpl. rewrite Hrun. reflexivity.
  - simpl. rewrite Hrun. simpl. split; [done|]. split; [done|].
    split; [done|].
    intros H. destruct (Hfail H) as (_ & m & -> & _). by exists m.
Qed.

Lemma handleRefresh_always_refreshed_witness :
  ∃ p', TicketHistory.handleRefresh TicketScenario.failing_backend
          {| TicketHistory.isRefreshing := false;
             TicketHistory.toasts := [];
             TicketHistory.app := TicketScenario.app |}
        = (Normal (), p')
        ∧ TicketHistory.toasts p' = [TicketHistory.refreshed]
        ∧ is_Some (ticket.error (TicketStore.state (TicketHistory.app p'))).
Proof.
  destruct (handleRefresh_always_refreshed TicketScenario.failing_backend
              {| TicketHistory.isRefreshing := false;
                 TicketHistory.toasts := [];
                 TicketHistory.app := TicketScenario.app |})
    as (p' & Hrun & Htoasts & _ & _ & Herr).
  exists p'. split; [exact Hrun|]. split; [exact Htoasts|].
  apply Herr. exact I.
Defined.

(** X25. [handleReopenTicket] never throws. When the back end grants the
    update, the ticket it sent stands in the place of the ticket reopened
    and the confirmation is shown; when it does not, the tickets stay as
    they were and a destructive toast shows the very message the store
    recorded as its [error]. *)
Theorem handleReopenTicket_outcome (b : ticket.Backend) (ticketId : string)
    (p : TicketHistory.Page) :
  let a := TicketHistory.app p in
  let o := ticket.patch_ticket b (api.authorization (TicketStore.browser a))
             ticketId TicketHistory.reopen_patch in
  ∃ p' t,
    TicketHistory.handleReopenTicket b ticketId p = (Normal (), p')
    ∧ TicketHistory.toasts p' = (TicketHistory.toasts p ++ [t])%list
    ∧ (∀ updatedTicket,
         api_succeeded o updatedTicket →
         LoginPage.variant t = None
         ∧ ticket.tickets (TicketStore.state (TicketHistory.app p'))
           = (λ x, if bool_decide (ticket.ticket_id x = ticketId)
                   then updatedTicket else x)
             <$> ticket.tickets (TicketStore.state a))
    ∧ (api_failed o →
         LoginPage.variant t = Some "destructive"
         ∧ ticket.error (TicketStore.state (TicketHistory.app p'))
           = Some (LoginPage.description t)
         ∧ ticket.tickets (TicketStore.state (TicketHistory.app p'))
           = ticket.tickets (TicketStore.state a)).
Proof.
  intros a o.
  unfold TicketHistory.handleReopenTicket, TicketHistory.toast, try_catch,
    modify, TicketHistory.in_app, mbind, Async_bind, bind.
  fold a.
  destruct o as [r|e] eqn:Ho; subst o.
  - destruct (resp_success r) eqn:Hs, (resp_data r) as [d|] eqn:Hd.
    + assert (Hok : api_succeeded
                      (ticket.patch_ticket b
                         (api.authorization (TicketStore.browser a))
                         ticketId TicketHistory.reopen_patch) d)
        by (exists r; by rewrite Ho).
      pose proof Hok as (r' & Hr' & Hs' & Hd').
      assert (Hrun :
        TicketStore.updateTicket b ticketId TicketHistory.reopen_patch a
        = (Normal (),
           {| TicketStore.browser := TicketStore.browser a;
              TicketStore.state :=
                {| ticket.tickets :=
                     (λ x, if bool_decide (ticket.ticket_id x = ticketId)
                           then d else x)
                     <$> ticket.tickets (TicketStore.state a);
                   ticket.loading := ticket.loading (TicketStore.state a);
                   ticket.error := ticket.error (TicketStore.state a) |} |})).
      { unfold TicketStore.updateTicket. apply try_catch_normal.
        erewrite bind_run;
          [|exact (TicketFacts.in_browser_fulfilled
                     (λ h, ticket.patch_ticket b h ticketId
                             TicketHistory.reopen_patch) a r Ho)].
        rewrite Hs, Hd. reflexivity. }
      rewrite Hrun. simpl. eexists _, _. split; [reflexivity|]. simpl.
      split; [done|]. split.
      * intros u (r2 & [= <-] & _ & Hd2). split; [done|].
        rewrite Hd in Hd2. by injection Hd2 as ->.
      * intros [? | ?]; congruence.
    + destruct (proj1 (proj2 (ticket_mutation_failure b a)) ticketId
                  TicketHistory.reopen_patch)
        as (m & a' & Hrun & (Herr & Htickets & _) & _).
      { rewrite Ho. by right. }
      rewrite Hrun. simpl. eexists _, _. split; [reflexivity|]. simpl.
      split; [done|]. split.
      * intros u (r2 & [= <-] & _ & Hd2). congruence.
      * done.
    + destruct (proj1 (proj2 (ticket_mutation_failure b a)) ticketId
                  TicketHistory.reopen_patch)
        as (m & a' & Hrun & (Herr & Htickets & _) & _).
      { rewrite Ho. by left. }
      rewrite Hrun. simpl. eexists _, _. split; [reflexivity|]. simpl.
      split; [done|]. split.
      * intros u (r2 & [= <-] & Hs2 & _). congruence.
      * done.
    + destruct (proj1 (proj2 (ticket_mutation_failure b a)) ticketId
                  TicketHistory.reopen_patch)
        as (m & a' & Hrun & (Herr & Htickets & _) & _).
      { rewrite Ho. by left. }
      rewrite Hrun. simpl. eexists _, _. split; [reflexivity|]. simpl.
      split; [done|]. split.
      * intros u (r2 & [= <-] & Hs2 & _). congruence.
      * done.
  - destruct (proj1 (proj2 (ticket_mutation_failure b a)) ticketId
                TicketHistory.reopen_patch)
      as (m & a' & Hrun & (Herr & Htickets & _) & _).
    { by rewrite Ho. }
    rewrite Hrun. simpl. eexists _, _. split; [reflexivity|]. simpl.
    split; [done|]. split.
    + intros u (r2 & [=] & _).
    + done.
Qed.

Lemma handleReopenTicket_outcome_witness :
  ∃ p' t,
    TicketHistory.handleReopenTicket TicketScenario.backend "tkt-000001"
      {| TicketHistory.isRefreshing := false; TicketHistory.toasts := [];
         TicketHistory.app := TicketScenario.app |}
    = (Normal (), p')
    ∧ TicketHistory.toasts p' = [t]
    ∧ LoginPage.variant t = None
    ∧ ticket.tickets (TicketStore.state (TicketHistory.app p'))
      = [TicketScenario.ticket_1_reopened; TicketScenario.ticket_2].
Proof.
  destruct (handleReopenTicket_outcome TicketScenario.backend "tkt-000001"
              {| TicketHistory.isRefreshing := false;
                 TicketHistory.toasts := [];
                 TicketHistory.app := TicketScenario.app |})
    as (p' & t & Hrun & Htoasts & Hok & _).
  exists p', t. split; [exact Hrun|]. split; [exact Htoasts|].
  apply (Hok TicketScenario.ticket_1_reopened).
  eexists. split; [reflexivity|]. split; reflexivity.
Defined.

(** In the ticket history, where [TicketItem] gets [handleReopenTicket] and
    the default [showActions], the Reopen button is rendered exactly for
    the resolved tickets. *)
Lemma reopen_shown_iff_resolved (t : ticket.ITicket) :
  TicketHistory.reopen_shown true true t = true
  ↔ ticket.ticket_status t = ticket.resolved.
Proof.
  unfold TicketHistory.reopen_shown. simpl.
  rewrite andb_true_r. apply bool_decide_eq_true.
Qed.

(** ** The guard over the stores *)

Lemma render_decided (s : IAuthStore) (requireRole : option Guard.Role)
    (location : string) :
  session_invariant s → Guard.render s requireRole location ≠ Guard.Skeleton.
Proof.
  intros Hinv. unfold Guard.render, Guard.ProtectedRoute.
  destruct s as [u t [|]]; simpl in *; [|done].
  destruct (proj1 Hinv eq_refl) as [[u' Hu] _]. simpl in Hu. subst u.
  simpl. destruct requireRole; [case_bool_decide|]; done.
Qed.

(** X26. Over a store reached from the initial one by any sequence of
    completed [login], [register], [logout] and [checkAuth] calls, the
    guard never shows the loading skeleton: it redirects or renders. The
    skeleton needs the flag set without a user, which no method of either
    store produces. *)
Theorem guard_decided_when_reachable
    (requireRole : option Guard.Role) (location : string) :
  (∀ ops : list SupabaseOps.Op,
     Guard.render (SupabaseOps.after ops signed_out) requireRole location
     ≠ Guard.Skeleton)
  ∧ (∀ (ops : list ApiOps.Op) (storage : gmap string string) (href : string),
       Guard.render (store (ApiOps.after ops (ApiOps.fresh storage href)))
         requireRole location
       ≠ Guard.Skeleton)
  ∧ Guard.ProtectedRoute (Some true) None requireRole location
    = Guard.Skeleton.
Proof.
  split; [|split; [|done]].
  - intros ops. apply render_decided, supabase_after_invariant,
      invariant_signed_out.
  - intros ops storage href. apply render_decided, api_after_invariant,
      invariant_signed_out.
Qed.

(** ** The records the Supabase store keeps *)

Lemma or_undef_nonempty (a : option string) (d : string) :
  d ≠ "" → or_undef a d ≠ "".
Proof. intros Hd. by destruct a as [[|c s]|]. Qed.

Lemma supabase_perform_role (o : SupabaseOps.Op) (s : IAuthStore) :
  (∀ u, types.user s = Some u → user_role u ≠ "") →
  ∀ u, types.user (SupabaseOps.perform o s).2 = Some u → user_role u ≠ "".
Proof.
  intros Hs u.
  destruct o as [supabase c | origin supabase d | supabase | supabase];
    simpl; SupabaseFacts.run_store.
  - destruct (supabase_js.signInWithPassword supabase _) as [r|e]; simpl;
      [|apply Hs].
    destruct (supabase_js.error r); simpl; [apply Hs|].
    destruct (supabase_js.data_user r), (supabase_js.data_session r); simpl;
      try apply Hs.
    intros [= <-]. simpl. by apply or_undef_nonempty.
  - destruct (supabase_js.signUp supabase _) as [r|e]; simpl; [|apply Hs].
    destruct (supabase_js.error r); simpl; [apply Hs|].
    destruct (supabase_js.data_user r), (supabase_js.data_session r); simpl;
      try apply Hs.
    by intros [= <-].
  - by destruct (supabase_js.signOut supabase).
  - destruct (supabase_js.getSession supabase) as [r|e]; simpl; [|done].
    destruct (supabase_js.session r); simpl; [|done].
    intros [= <-]. simpl. by apply or_undef_nonempty.
Qed.

(** X27. The Supabase store never keeps a user without a role: after any
    sequence of completed calls from the initial state, a stored user has a
    non-empty role, an empty or missing role in the provider's metadata
    having been replaced by "user". *)
Theorem supabase_role_never_empty (ops : list SupabaseOps.Op) (u : IUser) :
  types.user (SupabaseOps.after ops signed_out) = Some u →
  user_role u ≠ "".
Proof.
  revert u.
  assert (H : ∀ s, (∀ u, types.user s = Some u → user_role u ≠ "") →
                   ∀ u, types.user (SupabaseOps.after ops s) = Some u →
                        user_role u ≠ "").
  { induction ops as [|o ops IH]; intros s Hs; [done|].
    simpl. apply IH. by apply supabase_perform_role. }
  apply H. intros u [=].
Qed.

Lemma supabase_role_never_empty_witness :
  user_role Scenario.plain_user ≠ "".
Proof.
  apply (supabase_role_never_empty
           [SupabaseOps.op_login (Scenario.provider Scenario.user_1)
              Scenario.credentials]).
  reflexivity.
Defined.
